(** * Verification of [prefect.tasks.census.CensusSyncTask.run]

    The task posts to a Census trigger URL, then polls the status of the
    sync run until it is no longer "working".  The Python method is embedded
    as an interaction tree over the effects it performs ([requests.post],
    [requests.get], [time.sleep], [time.time], [self.logger.info]); a handler
    answers them from a scripted service and logs what was done, so that the
    number and the targets of the requests can be stated.

    Outside the model: a request or a sleep that itself raises (a connection
    error, an interval too large for [time.sleep]) and a [json()] that fails
    other than by its decoding error (a body nested too deeply); every effect
    is answered, and [json()] returns a value or raises its decoding error.

    Layout: Python values and strings, the fragment of [re] the pattern
    uses, responses and effects, the method, the scripted service, the
    vocabulary of the properties, then the lemmas and the properties. *)

From Stdlib Require Import ZArith NArith List String Ascii Bool Lia Floats.
From Stdlib Require Import DecimalString.
From Stdlib Require Import Morphisms Setoid RelationClasses.
From ITree Require Import ITree ITreeFacts Events.State Events.StateFacts.
From ITree Require Import Props.HasPost Props.Leaf.
Import ListNotations.
Import ITreeNotations.
Import LeafNotations.
Local Open Scope list_scope.
Local Open Scope itree_scope.

Set Implicit Arguments.
Set Warnings "-register-all".

(* ===================================================================== *)
(** ** Python strings and objects *)
(* ===================================================================== *)

(** A Python [str] is a sequence of Unicode code points. *)
Definition str : Type := list N.

(** A source literal (all literals of the module are ASCII). *)
Definition lit (s : string) : str :=
  List.map N_of_ascii (list_ascii_of_string s).

Definition str_eqb (a b : str) : bool :=
  if list_eq_dec N.eq_dec a b then true else false.

(** The objects the task handles: the results of [json.loads] and the
    groups of a match. Dictionaries keep their items in insertion order. *)
Inductive pyobj : Type :=
| PyNone
| PyBool (b : bool)
| PyInt (z : Z)
| PyFloat (f : float)
| PyStr (s : str)
| PyList (l : list pyobj)
| PyDict (items : list (str * pyobj)).

(** What the interpreter supplies and the module does not define: the
    Unicode table behind [\d] above ASCII, and [repr] of floats and
    containers (what an f-string prints for them). *)
Class PythonRuntime : Type := {
  unicode_Nd : N -> bool;
  repr : pyobj -> str
}.

(** [str(int)]: decimal, with a minus sign for negatives. *)
Definition format_int (z : Z) : str :=
  lit (NilZero.string_of_int (Z.to_int z)).

(** [f"{v}"] for a value [v]. *)
Definition format_value `{PythonRuntime} (v : pyobj) : str :=
  match v with
  | PyStr s => s
  | PyInt z => format_int z
  | PyNone => lit "None"
  | PyBool true => lit "True"
  | PyBool false => lit "False"
  | PyFloat _ | PyList _ | PyDict _ => repr v
  end.

(** The exceptions that can leave the method. [JSONDecodeError] is what
    [response.json()] raises on a body that is not JSON (in Python a subclass
    of [ValueError], with a message of its own); [ReError] is [re.error]. *)
Inductive exn : Type :=
| ValueError (msg : str)
| KeyError (key : str)
| TypeError
| AttributeError
| JSONDecodeError
| ReError.

Fixpoint dict_get (items : list (str * pyobj)) (key : str) : option pyobj :=
  match items with
  | [] => None
  | (k, v) :: rest => if str_eqb k key then Some v else dict_get rest key
  end.

(** [o[key]] with a string key: a dict answers or raises [KeyError]; a
    list, a string, a number, a bool or [None] raises [TypeError]. *)
Definition getitem (o : pyobj) (key : str) : exn + pyobj :=
  match o with
  | PyDict items =>
      match dict_get items key with
      | Some v => inr v
      | None => inl (KeyError key)
      end
  | _ => inl TypeError
  end.

(** [key in o.keys()]: only a dict has [keys]. *)
Definition in_keys (key : str) (o : pyobj) : exn + bool :=
  match o with
  | PyDict items =>
      inr (match dict_get items key with Some _ => true | None => false end)
  | _ => inl AttributeError
  end.

(** [o == s] for a string literal [s]. *)
Definition eq_str (o : pyobj) (s : str) : bool :=
  match o with
  | PyStr t => str_eqb t s
  | _ => false
  end.

(* ===================================================================== *)
(** ** The fragment of [re] the pattern uses *)
(* ===================================================================== *)

Module re.

(** One-character matchers. *)
Inductive set : Type :=
| LITERAL (c : N)
| ANY
| CATEGORY_DIGIT.

(** Compiled pattern code: one character, a greedy [*] of a one-character
    matcher, or a group boundary (mark [2g] opens group [g+1], mark [2g+1]
    closes it). *)
Inductive code : Type :=
| ONE (s : set)
| MAX_REPEAT (s : set)
| MARK (n : nat).

Record Pattern : Type := { prog : list code; ngroups : nat }.

Definition is_alnum (c : N) : bool :=
  ((48 <=? c) && (c <=? 57) || (65 <=? c) && (c <=? 90)
   || (97 <=? c) && (c <=? 122))%N.

(** Characters with a meaning of their own that the fragment leaves out. *)
Definition is_unsupported (c : N) : bool :=
  existsb (N.eqb c) (lit "[]{}|+?^$").

(** [parse src next open acc]: [next] is the number of groups opened so
    far, [open] the stack of groups not yet closed, [acc] the code emitted,
    last first. [None] is a pattern outside the fragment. *)
Fixpoint parse (src : str) (next : nat) (open : list nat) (acc : list code)
  : option Pattern :=
  match src with
  | [] =>
      match open with
      | [] => Some {| prog := rev acc; ngroups := next |}
      | _ :: _ => None
      end
  | c :: rest =>
      if (c =? 92)%N then                             (* backslash *)
        match rest with
        | [] => None
        | d :: rest' =>
            if (d =? 100)%N then parse rest' next open (ONE CATEGORY_DIGIT :: acc)
            else if is_alnum d then None
            else parse rest' next open (ONE (LITERAL d) :: acc)
        end
      else if (c =? 46)%N then parse rest next open (ONE ANY :: acc)
      else if (c =? 42)%N then                        (* star *)
        match acc with
        | ONE s :: acc' => parse rest next open (MAX_REPEAT s :: acc')
        | _ => None
        end
      else if (c =? 40)%N then                        (* ( *)
        match rest with
        | 63%N :: _ => None
        | _ => parse rest (S next) (next :: open) (MARK (2 * next) :: acc)
        end
      else if (c =? 41)%N then                        (* ) *)
        match open with
        | g :: open' => parse rest next open' (MARK (2 * g + 1) :: acc)
        | [] => None
        end
      else if is_unsupported c then None
      else parse rest next open (ONE (LITERAL c) :: acc)
  end.

Definition compile (pattern : str) : option Pattern := parse pattern 0 [] [].

Section Matching.
Context `{PythonRuntime}.

(** [\d] on a [str] pattern: a Unicode decimal digit. *)
Definition is_decimal_digit (c : N) : bool :=
  if (c <? 128)%N then ((48 <=? c) && (c <=? 57))%N else unicode_Nd c.

(** [.] without DOTALL: anything but a newline. *)
Definition set_match (s : set) (c : N) : bool :=
  match s with
  | LITERAL l => (c =? l)%N
  | ANY => negb (c =? 10)%N
  | CATEGORY_DIGIT => is_decimal_digit c
  end.

(** The backtracking matcher, from position [pos] with [rest] still to
    read. A greedy repeat takes as many characters as it can and gives them
    back one at a time while what follows fails. The answer is the marks
    set on the successful path. *)
Fixpoint sre_match (p : list code) (rest : str) (pos : nat)
         (marks : list (nat * nat)) {struct p} : option (list (nat * nat)) :=
  match p with
  | [] => Some marks
  | ONE s :: p' =>
      match rest with
      | c :: rest' =>
          if set_match s c then sre_match p' rest' (S pos) marks else None
      | [] => None
      end
  | MAX_REPEAT s :: p' =>
      (fix max_repeat (rest : str) (pos : nat) {struct rest} :=
         match rest with
         | c :: rest' =>
             if set_match s c then
               match max_repeat rest' (S pos) with
               | Some m => Some m
               | None => sre_match p' rest pos marks
               end
             else sre_match p' rest pos marks
         | [] => sre_match p' [] pos marks
         end) rest pos
  | MARK n :: p' => sre_match p' rest pos ((n, pos) :: marks)
  end.

End Matching.

Fixpoint mark_get (marks : list (nat * nat)) (n : nat) : option nat :=
  match marks with
  | [] => None
  | (k, v) :: rest => if Nat.eqb k n then Some v else mark_get rest n
  end.

(** A match object: the subject string, the pattern, and the position
    recorded at each mark. *)
Record Match : Type := { string : str; re_ : Pattern; regs : list (nat * nat) }.

(** [m.group(g)] for [g >= 1]: the text between the group's marks, [None]
    when the group took no part in the match. *)
Definition group (m : Match) (g : nat) : pyobj :=
  match mark_get (regs m) (2 * (g - 1)), mark_get (regs m) (2 * (g - 1) + 1) with
  | Some b, Some e => PyStr (firstn (e - b) (skipn b (string m)))
  | _, _ => PyNone
  end.

Definition groups (m : Match) : list pyobj :=
  List.map (group m) (seq 1 (ngroups (re_ m))).

(** [pattern.match(s)]: anchored at the start of [s], not at its end. *)
Definition match_ `{PythonRuntime} (p : Pattern) (s : str) : option Match :=
  match sre_match (prog p) s 0 [] with
  | Some marks => Some {| string := s; re_ := p; regs := marks |}
  | None => None
  end.

End re.

(* ===================================================================== *)
(** ** HTTP responses, effects and the task monad *)
(* ===================================================================== *)

(** What the task reads of a [requests.Response]. [json] is the decoded
    body; [None] stands for a body that is not JSON, on which
    [response.json()] raises. *)
Record Response : Type := {
  status_code : Z;
  text : str;
  json : option pyobj
}.

Definition response_json (r : Response) : exn + pyobj :=
  match json r with
  | Some v => inr v
  | None => inl JSONDecodeError
  end.

(** A record handed to [self.logger.info]. The two progress messages print
    [round(time.time()-start_time, 2)]; they keep the two clock readings
    instead of the printed number. *)
Inductive log_record : Type :=
| Message (msg : str)
| Elapsed (before : str) (start_time now : float) (after : str).

Variant ioE : Type -> Type :=
| requests_post (url : str) : ioE Response
| requests_get (url : str) : ioE Response
| time_sleep (secs : Z) : ioE unit
| time_time : ioE float
| logger_info (record : log_record) : ioE unit.

(** A computation that performs effects and returns or raises. *)
Definition task (A : Type) : Type := itree ioE (exn + A).

Definition ret {A} (a : A) : task A := Ret (inr a).
Definition raise {A} (e : exn) : task A := Ret (inl e).
Definition lift {A} (r : exn + A) : task A := Ret r.
Definition perform {A} (e : ioE A) : task A :=
  x <- ITree.trigger e ;; Ret (inr x).

Definition bind {A B} (t : task A) (k : A -> task B) : task B :=
  r <- t ;;
  match r with
  | inl e => Ret (inl e)
  | inr a => k a
  end.

Declare Scope task_scope.
Delimit Scope task_scope with task.
Notation "x <~ t1 ;; t2" := (bind t1 (fun x => t2))
  (at level 61, t1 at next level, right associativity) : task_scope.
Local Open Scope task_scope.

(** How an iteration of a loop ends: [continue] or [break], each with the
    loop's variables as they then are. *)
Variant flow (S : Type) : Type :=
| Continue (s : S)
| Break (s : S).
Arguments Continue {S} s.
Arguments Break {S} s.

(** [while True: body]. An exception raised by the body leaves the loop;
    nothing but [break] or an exception does. *)
Definition while_True {S} (body : S -> task (flow S)) (init : S) : task S :=
  ITree.iter
    (fun s =>
       r <- body s ;;
       match r with
       | inl e => Ret (inr (inl e))
       | inr (Continue s') => Ret (inl s')
       | inr (Break s') => Ret (inr (inr s'))
       end) init.

(* ===================================================================== *)
(** ** [census.py] *)
(* ===================================================================== *)

Definition MIN_WAIT_TIME : Z := 5.
Definition DEFAULT_WAIT_TIME : Z := 60.

Definition newline_indent : str := 10%N :: repeat 32%N 32.

Definition missing_api_trigger_msg : str :=
  lit "Value for parameter `api_trigger` must be provided. See Census sync"
  ++ newline_indent ++ lit "configuration page.".

Definition invalid_api_trigger_msg : str :=
  lit "Invalid parameter for `api_trigger` please paste directly from the Census"
  ++ newline_indent ++ lit "sync configuration page. This is CaSe SenSITiVe.".

Definition pattern : str :=
  lit "https:\/\/bearer:secret-token:(.*)@app.getcensus.com\/api\/v1\/syncs\/(\d*)\/trigger".

(** The message of [a, b = values] when [values] has not two items. *)
Definition unpack_msg (n : nat) : str :=
  if Nat.ltb n 2
  then lit "not enough values to unpack (expected 2, got "
       ++ format_int (Z.of_nat n) ++ lit ")"
  else lit "too many values to unpack (expected 2)".

Section Task.
Context `{PythonRuntime}.

Definition post_failed_msg (response : Response) : str :=
  lit "Sent POST, failed with status code " ++ format_int (status_code response)
  ++ lit ": " ++ text response ++ lit ".".

Definition sr_url_of (secret sync_run_id : pyobj) : str :=
  lit "https://bearer:secret-token:" ++ format_value secret
  ++ lit "@app.getcensus.com/api/v1/sync_runs/" ++ format_value sync_run_id.

Definition log_url_of (sync_id : pyobj) : str :=
  lit "https://app.getcensus.com/syncs/" ++ format_value sync_id
  ++ lit "/sync-history".

Definition poll_failed_msg (log_url : str) : str :=
  lit "Getting status of sync failed, please visit Census Logs at " ++ log_url
  ++ lit " to see more.".

(** The body of [while True:] (lines 94-108); the loop variable is [result]. *)
Definition poll (sync_id : pyobj) (sleep_time : Z) (sr_url log_url : str)
           (start_time : float) (result : pyobj) : task (flow pyobj) :=
  _ <~ perform (time_sleep sleep_time) ;;
  status_response <~ perform (requests_get sr_url) ;;
  response_dict <~ lift (response_json status_response) ;;
  failed <~ (if negb (status_code status_response =? 200)%Z then ret true
             else has_data <~ lift (in_keys (lit "data") response_dict) ;;
                  ret (negb has_data)) ;;
  if failed : bool then raise (ValueError (poll_failed_msg log_url))
  else
    result <~ lift (getitem response_dict (lit "data")) ;;
    status <~ lift (getitem result (lit "status")) ;;
    if eq_str status (lit "working") then
      now <~ perform time_time ;;
      _ <~ perform (logger_info
             (Elapsed (lit "Sync " ++ format_value sync_id ++ lit " still running after ")
                      start_time now (lit " seconds."))) ;;
      ret (Continue result)
    else ret (Break result).

(** [CensusSyncTask.run]. [api_trigger] is what the method body receives
    ([None] when neither the call nor the constructor gave one);
    [poll_status_every_n_seconds] is [None] when the caller leaves it out. *)
Definition run (api_trigger : option str)
           (poll_status_every_n_seconds : option Z) : task pyobj :=
  let poll_status_every_n_seconds :=
    match poll_status_every_n_seconds with
    | Some n => n
    | None => DEFAULT_WAIT_TIME
    end in
  match api_trigger with
  | None | Some [] => raise (ValueError missing_api_trigger_msg)
  | Some api_trigger =>
    match re.compile pattern with
    | None => raise ReError
    | Some url_pattern =>
      match re.match_ url_pattern api_trigger with
      | None => raise (ValueError invalid_api_trigger_msg)
      | Some confirmed_pattern =>
        match re.groups confirmed_pattern with
        | [secret; sync_id] =>
          response <~ perform (requests_post api_trigger) ;;
          if negb (status_code response =? 200)%Z then
            raise (ValueError (post_failed_msg response))
          else
            let sleep_time := Z.max MIN_WAIT_TIME poll_status_every_n_seconds in
            _ <~ perform (logger_info
                   (Message (lit "Started Census sync " ++ format_value sync_id
                             ++ lit ", sleep time set to " ++ format_int sleep_time
                             ++ lit " seconds."))) ;;
            body <~ lift (response_json response) ;;
            data <~ lift (getitem body (lit "data")) ;;
            sync_run_id <~ lift (getitem data (lit "sync_run_id")) ;;
            let sr_url := sr_url_of secret sync_run_id in
            let log_url := log_url_of sync_id in
            start_time <~ perform time_time ;;
            result <~ while_True (poll sync_id sleep_time sr_url log_url start_time)
                                 (PyDict []) ;;
            now <~ perform time_time ;;
            _ <~ perform (logger_info
                   (Elapsed (lit "Sync " ++ format_value sync_id
                             ++ lit " has finished running after ")
                            start_time now (lit " seconds."))) ;;
            _ <~ perform (logger_info
                   (Message (lit "View details here: " ++ log_url ++ lit "."))) ;;
            ret result
        | values => raise (ValueError (unpack_msg (List.length values)))
        end
      end
    end
  end.

End Task.

(* ===================================================================== *)
(** ** A scripted service *)
(* ===================================================================== *)

(** What the outside world answers: the response to a POST, the response
    to the [n]-th GET (counted from 0), and the [n]-th clock reading. *)
Record Service : Type := {
  post : str -> Response;
  get : nat -> str -> Response;
  clock : nat -> float
}.

Inductive io_event : Type :=
| POST (url : str)
| GET (url : str)
| SLEEP (secs : Z)
| TIME
| INFO (record : log_record).

Definition is_GET (ev : io_event) : bool :=
  match ev with GET _ => true | _ => false end.
Definition is_TIME (ev : io_event) : bool :=
  match ev with TIME => true | _ => false end.
Definition is_request (ev : io_event) : bool :=
  match ev with POST _ | GET _ => true | _ => false end.
Definition is_SLEEP (ev : io_event) : bool :=
  match ev with SLEEP _ => true | _ => false end.

(** The requests of a log, and the GETs among them. *)
Definition requests (log : list io_event) : list io_event := filter is_request log.
Definition polls (log : list io_event) : list io_event := filter is_GET log.
Definition sleeps (log : list io_event) : list io_event := filter is_SLEEP log.

(** Each effect is answered from the script and appended to the log. *)
Definition answer (svc : Service) {T} (e : ioE T) (log : list io_event)
  : list io_event * T :=
  match e in ioE T return list io_event * T with
  | requests_post url => (log ++ [POST url], post svc url)
  | requests_get url => (log ++ [GET url], get svc (List.length (polls log)) url)
  | time_sleep secs => (log ++ [SLEEP secs], tt)
  | time_time => (log ++ [TIME], clock svc (List.length (filter is_TIME log)))
  | logger_info record => (log ++ [INFO record], tt)
  end.

Definition handle (svc : Service) : ioE ~> Monads.stateT (list io_event) (itree void1) :=
  fun T (e : ioE T) (log : list io_event) => Ret (answer svc e log).

(** A whole invocation against [svc], from an empty log. *)
Definition invoke {A} (svc : Service) (t : task A)
  : itree void1 (list io_event * (exn + A)) :=
  interp_state (handle svc) t [].

(** Running an effect-free tree for at most [fuel] silent steps. *)
Fixpoint steps {R} (fuel : nat) (t : itree void1 R) : option R :=
  match fuel with
  | O => None
  | S fuel' =>
      match observe t with
      | RetF r => Some r
      | TauF t' => steps fuel' t'
      | VisF e _ => match e in void1 _ with end
      end
  end.

(* ===================================================================== *)
(** ** Vocabulary of the properties *)
(* ===================================================================== *)

(** The compiled form of [pattern]. *)
Definition url_pattern : re.Pattern :=
  Eval vm_compute in
    match re.compile pattern with
    | Some p => p
    | None => {| re.prog := []; re.ngroups := 0 |}
    end.

Section Vocabulary.
Context `{PythonRuntime}.

(** What a code sequence accepts, read off the code: [w] is the text
    consumed from position [pos], [m] the marks at the end. *)
Fixpoint accepts (p : list re.code) (w : str) (pos : nat)
         (marks m : list (nat * nat)) : Prop :=
  match p with
  | [] => w = [] /\ m = marks
  | re.ONE s :: p' =>
      exists c w', w = c :: w' /\ re.set_match s c = true
                   /\ accepts p' w' (S pos) marks m
  | re.MAX_REPEAT s :: p' =>
      exists u w', w = u ++ w' /\ Forall (fun c => re.set_match s c = true) u
                   /\ accepts p' w' (pos + List.length u) marks m
  | re.MARK n :: p' => accepts p' w pos ((n, pos) :: marks) m
  end.

(** [s] starts with a trigger URL whose secret is [secret] and whose sync
    id is [sync_id], as [pattern] reads one: the two dots of the host stand
    for any character but a newline, and anything may follow [/trigger]. *)
Definition starts_with_trigger (s secret sync_id : str) : Prop :=
  exists x y tail,
    s = lit "https://bearer:secret-token:" ++ secret ++ lit "@app" ++ [x]
        ++ lit "getcensus" ++ [y] ++ lit "com/api/v1/syncs/" ++ sync_id
        ++ lit "/trigger" ++ tail
    /\ x <> 10%N /\ y <> 10%N
    /\ Forall (fun c => c <> 10%N) secret
    /\ Forall (fun c => re.is_decimal_digit c = true) sync_id.

(** The endpoint shape as the specification writes it: the whole string,
    with the host spelled out. *)
Definition trigger_endpoint_shape (s : str) : Prop :=
  exists secret sync_id,
    s = lit "https://bearer:secret-token:" ++ secret
        ++ lit "@app.getcensus.com/api/v1/syncs/" ++ sync_id ++ lit "/trigger"
    /\ Forall (fun c => re.is_decimal_digit c = true) sync_id.

(** The two error classes of the specification. The method raises
    [ValueError] throughout; the classes are told apart by the raise site,
    that is by the message. *)
Definition ConfigurationError (e : exn) : Prop :=
  e = ValueError missing_api_trigger_msg \/ e = ValueError invalid_api_trigger_msg.

Definition RemoteServiceError (e : exn) : Prop :=
  (exists response, e = ValueError (post_failed_msg response))
  \/ (exists log_url, e = ValueError (poll_failed_msg log_url)).

(** A poll response that keeps the loop going: status 200 and a body
    [{"data": {..., "status": "working"}}]. *)
Definition still_working (r : Response) : Prop :=
  status_code r = 200%Z /\
  exists body data status,
    json r = Some body /\ getitem body (lit "data") = inr data
    /\ getitem data (lit "status") = inr status
    /\ eq_str status (lit "working") = true.

(** A poll response that ends the loop with [data]: status 200 and a body
    whose [data] has a [status] other than "working". *)
Definition terminal (r : Response) (data : pyobj) : Prop :=
  status_code r = 200%Z /\
  exists body status,
    json r = Some body /\ getitem body (lit "data") = inr data
    /\ getitem data (lit "status") = inr status
    /\ eq_str status (lit "working") = false.

(** A trigger response that starts a run: status 200 and a body
    [{"data": {..., "sync_run_id": id}}]. *)
Definition started (r : Response) (sync_run_id : pyobj) : Prop :=
  status_code r = 200%Z /\
  exists body data,
    json r = Some body /\ getitem body (lit "data") = inr data
    /\ getitem data (lit "sync_run_id") = inr sync_run_id.

(** Validation passes on [api_trigger] and reads [secret] and [sync_id]
    off it. *)
Definition validates (api_trigger secret sync_id : str) : Prop :=
  exists m, re.match_ url_pattern api_trigger = Some m
            /\ re.groups m = [PyStr secret; PyStr sync_id].

(** What one poll response makes of the loop (lines 96-108 without their
    effects). *)
Definition poll_result (log_url : str) (r : Response) : exn + flow pyobj :=
  match response_json r with
  | inl e => inl e
  | inr response_dict =>
      if negb (status_code r =? 200)%Z
      then inl (ValueError (poll_failed_msg log_url))
      else
        match in_keys (lit "data") response_dict with
        | inl e => inl e
        | inr false => inl (ValueError (poll_failed_msg log_url))
        | inr true =>
            match getitem response_dict (lit "data") with
            | inl e => inl e
            | inr result =>
                match getitem result (lit "status") with
                | inl e => inl e
                | inr status =>
                    if eq_str status (lit "working") then inr (Continue result)
                    else inr (Break result)
                end
            end
        end
  end.

(** The run identifier read off the trigger response (line 86). *)
Definition run_id_of (r : Response) : exn + pyobj :=
  match response_json r with
  | inl e => inl e
  | inr body =>
      match getitem body (lit "data") with
      | inl e => inl e
      | inr data => getitem data (lit "sync_run_id")
      end
  end.

(** The decoded body [body] has the nested field [data.sync_run_id]. *)
Definition has_sync_run_id (body : pyobj) : Prop :=
  exists items data_items v,
    body = PyDict items /\ dict_get items (lit "data") = Some (PyDict data_items)
    /\ dict_get data_items (lit "sync_run_id") = Some v.

End Vocabulary.

Section Outcomes.
Context `{PythonRuntime}.

(** The last poll of a loop: it raises or breaks. *)
Definition ends (final : exn + pyobj) : exn + flow pyobj :=
  match final with
  | inl e => inl e
  | inr data => inr (Break data)
  end.

(** The interval the task sleeps between polls (line 80, with the default of
    the signature). *)
Definition interval (poll_status_every_n_seconds : option Z) : Z :=
  Z.max MIN_WAIT_TIME
        match poll_status_every_n_seconds with
        | Some n => n
        | None => DEFAULT_WAIT_TIME
        end.

(** [ensures t Q]: every way [t] can end satisfies [Q]. *)
Definition ensures {A} (t : task A) (Q : exn + A -> Prop) : Prop :=
  forall r, r ∈ t -> Q r.

(** [r] is not a [ConfigurationError]. *)
Definition no_config {A} (r : exn + A) : Prop :=
  match r with
  | inl e => ~ ConfigurationError e
  | inr _ => True
  end.

(** The first thing [t] does is a POST to [url]. *)
Definition posts_first_to {A} (t : task A) (url : str) : Prop :=
  exists k, t ≈ Vis (requests_post url) k.

End Outcomes.

(** A runtime for the examples: no decimal digits beyond ASCII, and a
    [repr] that the examples never consult. *)
Definition example_runtime : PythonRuntime :=
  {| unicode_Nd := fun _ => false; repr := fun _ => lit "?" |}.

(* ===================================================================== *)
(** ** Example endpoints and services *)
(* ===================================================================== *)

Definition example_trigger : str :=
  lit "https://bearer:secret-token:abc123@app.getcensus.com/api/v1/syncs/42/trigger".
Definition example_sr_url : str :=
  lit "https://bearer:secret-token:abc123@app.getcensus.com/api/v1/sync_runs/r9".
Definition trigger_with_tail : str := example_trigger ++ lit "?x=1".
Definition trigger_empty_secret : str :=
  lit "https://bearer:secret-token:@app.getcensus.com/api/v1/syncs/42/trigger".
Definition trigger_empty_id : str :=
  lit "https://bearer:secret-token:abc123@app.getcensus.com/api/v1/syncs//trigger".
Definition trigger_upper_scheme : str :=
  lit "HTTPS://bearer:secret-token:abc123@app.getcensus.com/api/v1/syncs/42/trigger".

Definition quoted (s : string) : str := 34%N :: lit s ++ [34%N].

Definition trigger_reply : Response :=
  {| status_code := 200;
     text := lit "{" ++ quoted "data" ++ lit ": {" ++ quoted "sync_run_id"
             ++ lit ": " ++ quoted "r9" ++ lit "}}";
     json := Some (PyDict [(lit "data",
                            PyDict [(lit "sync_run_id", PyStr (lit "r9"))])]) |}.

Definition working_data : pyobj := PyDict [(lit "status", PyStr (lit "working"))].
Definition working_reply : Response :=
  {| status_code := 200;
     text := lit "{" ++ quoted "data" ++ lit ": {" ++ quoted "status"
             ++ lit ": " ++ quoted "working" ++ lit "}}";
     json := Some (PyDict [(lit "data", working_data)]) |}.

Definition completed_data : pyobj :=
  PyDict [(lit "status", PyStr (lit "completed")); (lit "records_processed", PyInt 10)].
Definition completed_reply : Response :=
  {| status_code := 200;
     text := lit "{" ++ quoted "data" ++ lit ": {" ++ quoted "status"
             ++ lit ": " ++ quoted "completed" ++ lit ", " ++ quoted "records_processed"
             ++ lit ": 10}}";
     json := Some (PyDict [(lit "data", completed_data)]) |}.

Definition no_run_id_reply : Response :=
  {| status_code := 200;
     text := lit "{" ++ quoted "data" ++ lit ": {}}";
     json := Some (PyDict [(lit "data", PyDict [])]) |}.

(** An error page: not JSON. *)
Definition error_page (code : Z) (page : string) : Response :=
  {| status_code := code; text := lit page; json := None |}.

(** Polls answer "working", "working", "completed". *)
Definition three_polls : Service :=
  {| post := fun _ => trigger_reply;
     get := fun n _ => if Nat.ltb n 2 then working_reply else completed_reply;
     clock := fun _ => 0%float |}.

(** The scenario of the specification: "working", then "completed". *)
Definition two_polls : Service :=
  {| post := fun _ => trigger_reply;
     get := fun n _ => if Nat.ltb n 1 then working_reply else completed_reply;
     clock := fun _ => 0%float |}.

Definition failing_trigger : Service :=
  {| post := fun _ => error_page 500 "Internal Server Error";
     get := fun _ _ => completed_reply;
     clock := fun _ => 0%float |}.

(** The trigger succeeds; the first poll meets a gateway's error page. *)
Definition failing_poll : Service :=
  {| post := fun _ => trigger_reply;
     get := fun _ _ => error_page 502 "<html>502 Bad Gateway</html>";
     clock := fun _ => 0%float |}.

Definition no_run_id : Service :=
  {| post := fun _ => no_run_id_reply;
     get := fun _ _ => completed_reply;
     clock := fun _ => 0%float |}.

(* ===================================================================== *)
(** ** Further vocabulary and examples *)
(* ===================================================================== *)

(** The endpoint in the format the docstring gives (line 42). *)
Definition trigger_url (secret sync_id : str) : str :=
  lit "https://bearer:secret-token:" ++ secret
  ++ lit "@app.getcensus.com/api/v1/syncs/" ++ sync_id ++ lit "/trigger".

(** The requests and the sleeps of a log, in order. *)
Definition is_traffic (ev : io_event) : bool := is_request ev || is_SLEEP ev.
Definition traffic (log : list io_event) : list io_event := filter is_traffic log.

(** [k] rounds of the polling loop, as they show in the traffic. *)
Fixpoint rounds (t : Z) (url : str) (k : nat) : list io_event :=
  match k with
  | O => []
  | S k' => SLEEP t :: GET url :: rounds t url k'
  end.

Section FurtherVocabulary.
Context `{PythonRuntime}.

(** An exception that comes neither from compiling the pattern (line 61) nor
    from unpacking the groups of its match (line 73). *)
Definition not_a_pattern_error (e : exn) : Prop :=
  e <> ReError /\ forall n, e <> ValueError (unpack_msg n).

(** A payload the method can return: a dict with a [status] that is not
    "working". *)
Definition finished_payload (v : pyobj) : Prop :=
  exists items status,
    v = PyDict items /\ dict_get items (lit "status") = Some status
    /\ eq_str status (lit "working") = false.

Definition run_outcome (r : exn + pyobj) : Prop :=
  match r with
  | inl e => not_a_pattern_error e
  | inr v => finished_payload v
  end.

End FurtherVocabulary.

(** The poll is answered 500 with a JSON body. *)
Definition poll_500_json : Service :=
  {| post := fun _ => trigger_reply;
     get := fun _ _ =>
       {| status_code := 500;
          text := lit "{" ++ quoted "error" ++ lit ": " ++ quoted "boom" ++ lit "}";
          json := Some (PyDict [(lit "error", PyStr (lit "boom"))]) |};
     clock := fun _ => 0%float |}.

(** The poll is answered 200 with a JSON list. *)
Definition poll_list_body : Service :=
  {| post := fun _ => trigger_reply;
     get := fun _ _ => {| status_code := 200; text := lit "[]"; json := Some (PyList []) |};
     clock := fun _ => 0%float |}.

(** The poll is answered 200 with [{"data": {}}]. *)
Definition poll_no_status : Service :=
  {| post := fun _ => trigger_reply;
     get := fun _ _ => no_run_id_reply;
     clock := fun _ => 0%float |}.

(** The trigger is answered 200 with a body that is not JSON. *)
Definition trigger_not_json : Service :=
  {| post := fun _ => error_page 200 "OK";
     get := fun _ _ => completed_reply;
     clock := fun _ => 0%float |}.

(** Every poll is answered "working". *)
Definition always_working : Service :=
  {| post := fun _ => trigger_reply;
     get := fun _ _ => working_reply;
     clock := fun _ => 0%float |}.

(** An endpoint that can be read in two ways. *)
Definition ambiguous_trigger : str :=
  lit "https://bearer:secret-token:a@app.getcensus.com/api/v1/syncs/1/trigger"
  ++ lit "@app.getcensus.com/api/v1/syncs/22/trigger".

(* ===================================================================== *)
(** ** The matcher against what the code accepts *)
(* ===================================================================== *)

Section MatcherFacts.
Context `{PythonRuntime}.

Lemma sre_match_sound p :
  forall rest pos marks m,
    re.sre_match p rest pos marks = Some m ->
    exists w tail, rest = w ++ tail /\ accepts p w pos marks m.
Proof.
  induction p as [|c p IH]; intros rest pos marks m Hm.
  - exists [], rest. cbn in *. inversion Hm. auto.
  - destruct c as [s|s|n].
    + cbn in Hm. destruct rest as [|c rest]; [discriminate|].
      destruct (re.set_match s c) eqn:Hc; [|discriminate].
      destruct (IH _ _ _ _ Hm) as (w & tail & -> & Hw).
      exists (c :: w), tail. split; [reflexivity|].
      cbn. exists c, w. auto.
    + cbn in Hm. revert pos Hm.
      induction rest as [|c rest IHr]; intros pos Hm.
      * destruct (IH _ _ _ _ Hm) as (w & tail & Hrest & Hw).
        exists w, tail. split; [assumption|].
        cbn. exists [], w. rewrite Nat.add_0_r. auto.
      * assert (Hskip : re.sre_match p (c :: rest) pos marks = Some m ->
                        exists w tail, c :: rest = w ++ tail
                                       /\ accepts (re.MAX_REPEAT s :: p) w pos marks m).
        { intros Hp. destruct (IH _ _ _ _ Hp) as (w & tail & Hrest & Hw).
          exists w, tail. split; [assumption|].
          cbn. exists [], w. rewrite Nat.add_0_r. auto. }
        destruct (re.set_match s c) eqn:Hc; [|auto].
        match type of Hm with
        | match ?R with _ => _ end = _ => destruct R as [m'|] eqn:Hrep
        end; [|auto].
        inversion Hm; subst m'.
        destruct (IHr _ Hrep) as (w & tail & -> & Hw).
        cbn in Hw. destruct Hw as (u & w' & -> & Hu & Hw').
        exists (c :: u ++ w'), tail. split; [reflexivity|].
        cbn. exists (c :: u), w'. repeat split; auto.
        cbn. rewrite <- plus_n_Sm. exact Hw'.
    + cbn in Hm. destruct (IH _ _ _ _ Hm) as (w & tail & -> & Hw).
      exists w, tail. auto.
Qed.

Lemma sre_match_complete p :
  forall w pos marks m tail,
    accepts p w pos marks m ->
    re.sre_match p (w ++ tail) pos marks <> None.
Proof.
  induction p as [|c p IH]; intros w pos marks m tail Hw.
  - cbn. discriminate.
  - destruct c as [s|s|n]; cbn in Hw.
    + destruct Hw as (c & w' & -> & Hc & Hw'). cbn. rewrite Hc. eauto.
    + destruct Hw as (u & w' & -> & Hu & Hw'). cbn.
      revert pos Hw'. induction Hu as [|c u Hc Hu IHu]; intros pos Hw'.
      * rewrite Nat.add_0_r in Hw'. pose proof (IH _ _ _ _ tail Hw') as Hp.
        cbn. destruct (w' ++ tail) as [|c rest]; [exact Hp|].
        destruct (re.set_match s c); [|exact Hp].
        match goal with
        | |- match ?R with _ => _ end <> _ => destruct R
        end; [discriminate | exact Hp].
      * cbn. rewrite Hc.
        cbn in Hw'. rewrite <- plus_n_Sm in Hw'.
        specialize (IHu (S pos) Hw').
        match goal with
        | |- match ?R with _ => _ end <> _ => destruct R
        end; [discriminate | contradiction].
    + cbn. eauto.
Qed.

End MatcherFacts.

(* ===================================================================== *)
(** ** What [pattern] matches *)
(* ===================================================================== *)

Section PatternFacts.
Context `{PythonRuntime}.

Lemma url_pattern_compiled : re.compile pattern = Some url_pattern.
Proof. vm_compute. reflexivity. Qed.

Lemma set_match_LITERAL l c : re.set_match (re.LITERAL l) c = true -> c = l.
Proof. cbn. apply N.eqb_eq. Qed.

Lemma set_match_ANY c : re.set_match re.ANY c = true -> c <> 10%N.
Proof. cbn. intros Hc ->. discriminate. Qed.

Ltac open_accepts H :=
  repeat match type of H with
         | accepts (re.ONE (re.LITERAL _) :: _) _ _ _ _ =>
             let c := fresh "c" in let w := fresh "w" in let Hc := fresh "Hc" in
             destruct H as (c & w & -> & Hc & H);
             apply set_match_LITERAL in Hc; subst c
         | accepts (re.ONE re.ANY :: _) _ _ _ _ =>
             let c := fresh "c" in let w := fresh "w" in let Hc := fresh "Hany" in
             destruct H as (c & w & -> & Hc & H);
             apply set_match_ANY in Hc
         | accepts (re.MAX_REPEAT _ :: _) _ _ _ _ =>
             let u := fresh "u" in let w := fresh "w" in let Hu := fresh "Hu" in
             destruct H as (u & w & -> & Hu & H)
         | accepts (re.MARK _ :: _) _ _ _ _ => change (accepts (re.MARK ?n :: ?p) ?w ?pos ?mk ?m) with (accepts p w pos ((n, pos) :: mk) m) in H
         | accepts [] _ _ _ _ => destruct H as [-> ->]
         end.

Lemma group_at m g b e :
  re.mark_get (re.regs m) (2 * (g - 1)) = Some b ->
  re.mark_get (re.regs m) (2 * (g - 1) + 1) = Some e ->
  re.group m g = PyStr (firstn (e - b) (skipn b (re.string m))).
Proof. unfold re.group. intros -> ->. reflexivity. Qed.

Lemma slice_between (s pre u rest : str) b e :
  s = pre ++ u ++ rest -> b = List.length pre -> e = List.length (pre ++ u) ->
  firstn (e - b) (skipn b s) = u.
Proof.
  intros -> -> ->.
  rewrite skipn_app, skipn_all, Nat.sub_diag. cbn.
  rewrite length_app, Nat.add_comm, Nat.add_sub.
  rewrite firstn_app, firstn_all, Nat.sub_diag. cbn. apply app_nil_r.
Qed.

Lemma match_groups s m :
  re.match_ url_pattern s = Some m ->
  exists secret sync_id,
    re.string m = s /\ re.groups m = [PyStr secret; PyStr sync_id]
    /\ starts_with_trigger s secret sync_id.
Proof.
  unfold re.match_. destruct (re.sre_match _ s 0 []) as [marks|] eqn:Hm; [|discriminate].
  intros [= <-].
  apply sre_match_sound in Hm. destruct Hm as (w & tail & -> & Hw).
  unfold url_pattern, re.prog in Hw.
  open_accepts Hw.
  exists u, u0. split; [reflexivity|]. split.
  - unfold re.groups. cbn [re.re_ re.ngroups url_pattern seq List.map].
    erewrite (group_at _ 1) by reflexivity.
    erewrite (group_at _ 2) by reflexivity.
    cbn [re.string].
    f_equal; [|f_equal]; f_equal.
    + apply slice_between
        with (pre := lit "https://bearer:secret-token:")
             (rest := lit "@app" ++ [c] ++ lit "getcensus" ++ [c0]
                      ++ lit "com/api/v1/syncs/" ++ u0 ++ lit "/trigger" ++ tail).
      * cbn. rewrite <- !app_assoc. cbn. rewrite <- !app_assoc. reflexivity.
      * reflexivity.
      * rewrite length_app. reflexivity.
    + apply slice_between
        with (pre := lit "https://bearer:secret-token:" ++ u ++ lit "@app" ++ [c]
                     ++ lit "getcensus" ++ [c0] ++ lit "com/api/v1/syncs/")
             (rest := lit "/trigger" ++ tail).
      * cbn. rewrite <- !app_assoc. cbn. rewrite <- !app_assoc. reflexivity.
      * cbn; rewrite ?length_app; cbn; rewrite ?length_app; cbn; lia.
      * cbn; rewrite ?length_app; cbn; rewrite ?length_app; cbn; lia.
  - exists c, c0, tail. repeat split; auto.
    + cbn. rewrite <- !app_assoc. cbn. rewrite <- !app_assoc. reflexivity.
    + eapply Forall_impl; [|exact Hu]. intros a. apply set_match_ANY.
Qed.

Lemma accepts_ONE s p c w pos marks m :
  re.set_match s c = true -> accepts p w (S pos) marks m ->
  accepts (re.ONE s :: p) (c :: w) pos marks m.
Proof. intros Hc Hw. cbn. eauto. Qed.

Lemma accepts_MAX_REPEAT s p u w pos marks m :
  Forall (fun c => re.set_match s c = true) u ->
  accepts p w (pos + List.length u) marks m ->
  accepts (re.MAX_REPEAT s :: p) (u ++ w) pos marks m.
Proof. intros Hu Hw. cbn. eauto. Qed.

Lemma match_complete s secret sync_id :
  starts_with_trigger s secret sync_id -> re.match_ url_pattern s <> None.
Proof.
  intros (x & y & tail & -> & Hx & Hy & Hsecret & Hid).
  assert (Hany : forall c, c <> 10%N -> re.set_match re.ANY c = true).
  { intros c Hc. cbn. apply negb_true_iff, N.eqb_neq, Hc. }
  assert (Hacc : exists m,
    accepts (re.prog url_pattern)
      (lit "https://bearer:secret-token:" ++ secret ++ lit "@app" ++ [x]
        ++ lit "getcensus" ++ [y] ++ lit "com/api/v1/syncs/" ++ sync_id
        ++ lit "/trigger") 0 [] m).
  { eexists. unfold url_pattern, re.prog, lit.
    cbn [list_ascii_of_string List.map app].
    repeat first
      [ apply accepts_ONE; [first [reflexivity | apply Hany; assumption]|]
      | apply accepts_MAX_REPEAT;
        [first [exact Hid | eapply Forall_impl; [|exact Hsecret]; exact Hany]|]
      | progress cbn [accepts] ].
    split; reflexivity. }
  destruct Hacc as [m Hacc].
  apply sre_match_complete with (tail := tail) in Hacc.
  unfold re.match_.
  repeat rewrite <- app_assoc in Hacc.
  destruct (re.sre_match _ _ 0 []); [discriminate | contradiction].
Qed.

End PatternFacts.

(* ===================================================================== *)
(** ** Responses and what the task reads off them *)
(* ===================================================================== *)

Section ResponseFacts.
Context `{PythonRuntime}.

Lemma getitem_raises o key e :
  getitem o key = inl e -> e = KeyError key \/ e = TypeError.
Proof.
  destruct o; cbn; try (intros [= <-]; auto).
  destruct (dict_get items key); intros [= <-]; auto.
Qed.

Lemma in_keys_raises key o e : in_keys key o = inl e -> e = AttributeError.
Proof. destruct o; cbn; intros [= <-]; reflexivity. Qed.

Lemma response_json_raises r e : response_json r = inl e -> e = JSONDecodeError.
Proof. unfold response_json. destruct (json r); intros [= <-]; reflexivity. Qed.

Lemma getitem_in_keys body key v :
  getitem body key = inr v -> in_keys key body = inr true.
Proof.
  destruct body; cbn; try discriminate.
  destruct (dict_get items key); [reflexivity | discriminate].
Qed.

Lemma still_working_continues log_url r :
  still_working r -> exists d, poll_result log_url r = inr (Continue d).
Proof.
  intros (Hcode & body & data & status & Hjson & Hdata & Hstatus & Hw).
  exists data. unfold poll_result, response_json.
  rewrite Hjson, Hcode, (getitem_in_keys _ _ Hdata), Hdata, Hstatus, Hw. reflexivity.
Qed.

Lemma terminal_ends log_url r data :
  terminal r data -> poll_result log_url r = ends (inr data).
Proof.
  intros (Hcode & body & status & Hjson & Hdata & Hstatus & Hw).
  unfold poll_result, response_json.
  rewrite Hjson, Hcode, (getitem_in_keys _ _ Hdata), Hdata, Hstatus, Hw. reflexivity.
Qed.

Lemma undecodable_ends log_url r :
  json r = None -> poll_result log_url r = ends (inl JSONDecodeError).
Proof. intros Hjson. unfold poll_result, response_json. rewrite Hjson. reflexivity. Qed.

(** What the poll does report: a decoded body with a bad status, or a
    decoded dict without [data]. *)
Lemma poll_failure_reported log_url r body :
  json r = Some body ->
  status_code r <> 200%Z \/ in_keys (lit "data") body = inr false ->
  poll_result log_url r = ends (inl (ValueError (poll_failed_msg log_url))).
Proof.
  intros Hjson Hbad. unfold poll_result, response_json. rewrite Hjson.
  destruct (status_code r =? 200)%Z eqn:Hcode; cbn [negb]; [|reflexivity].
  destruct Hbad as [Hbad|Hbad].
  - apply Z.eqb_eq in Hcode. contradiction.
  - rewrite Hbad. reflexivity.
Qed.

Lemma missing_run_id_raises r body :
  json r = Some body -> ~ has_sync_run_id body ->
  exists e, run_id_of r = inl e
            /\ (e = KeyError (lit "data") \/ e = KeyError (lit "sync_run_id")
                \/ e = TypeError).
Proof.
  intros Hjson Hno. unfold run_id_of, response_json. rewrite Hjson.
  destruct (getitem body (lit "data")) as [e|data] eqn:Hdata.
  { exists e. split; [reflexivity|].
    destruct (getitem_raises _ _ Hdata) as [-> | ->]; auto. }
  destruct (getitem data (lit "sync_run_id")) as [e|v] eqn:Hid.
  { exists e. split; [reflexivity|].
    destruct (getitem_raises _ _ Hid) as [-> | ->]; auto. }
  exfalso. apply Hno.
  destruct body; try discriminate. cbn [getitem] in Hdata.
  destruct (dict_get items (lit "data")) as [d|] eqn:Hd; [|discriminate].
  injection Hdata as ->.
  destruct data; try discriminate. cbn [getitem] in Hid.
  destruct (dict_get items0 (lit "sync_run_id")) as [w|] eqn:Hw; [|discriminate].
  exists items, items0, w. auto.
Qed.

Lemma no_match_no_trigger s :
  re.match_ url_pattern s = None ->
  forall secret sync_id, ~ starts_with_trigger s secret sync_id.
Proof. intros Hm secret sync_id Hs. exact (match_complete Hs Hm). Qed.

Lemma no_trigger_no_match s :
  (forall secret sync_id, ~ starts_with_trigger s secret sync_id) ->
  re.match_ url_pattern s = None.
Proof.
  intros Hno. destruct (re.match_ url_pattern s) as [m|] eqn:Hm; [|reflexivity].
  destruct (match_groups _ Hm) as (secret & sync_id & _ & _ & Hs).
  destruct (Hno _ _ Hs).
Qed.

Lemma validates_starts api secret sync_id :
  validates api secret sync_id -> starts_with_trigger api secret sync_id.
Proof.
  intros (m & Hm & Hgroups).
  destruct (match_groups _ Hm) as (secret' & sync_id' & _ & Hgroups' & Hs).
  rewrite Hgroups in Hgroups'.
  assert (secret' = secret) as -> by congruence.
  assert (sync_id' = sync_id) as -> by congruence.
  exact Hs.
Qed.

End ResponseFacts.

(* ===================================================================== *)
(** ** Running the task against a service *)
(* ===================================================================== *)

Section TaskLaws.
Context `{PythonRuntime}.
Variable svc : Service.

Lemma bind_lift {A B} (r : exn + A) (k : A -> task B) :
  (x <~ lift r ;; k x) ≅ match r with inl e => raise e | inr a => k a end.
Proof. unfold bind, lift. rewrite bind_ret_l. reflexivity. Qed.

Lemma bind_ret {A B} (a : A) (k : A -> task B) : (x <~ ret a ;; k x) ≅ k a.
Proof. unfold bind, ret. rewrite bind_ret_l. reflexivity. Qed.

Lemma bind_raise {A B} (e : exn) (k : A -> task B) : (x <~ raise e ;; k x) ≅ raise e.
Proof. unfold bind, raise. rewrite bind_ret_l. reflexivity. Qed.

Lemma bind_assoc {A B C} (t : task A) (k1 : A -> task B) (k2 : B -> task C) :
  (y <~ (x <~ t ;; k1 x) ;; k2 y) ≅ (x <~ t ;; y <~ k1 x ;; k2 y).
Proof.
  unfold bind. rewrite bind_bind. apply eqit_bind; [reflexivity|].
  intros [e|a]; [rewrite bind_ret_l|]; reflexivity.
Qed.

Lemma bind_perform {A B} (e : ioE A) (k : A -> task B) :
  (x <~ perform e ;; k x) ≅ Vis e k.
Proof.
  unfold bind, perform. rewrite bind_bind, bind_trigger.
  apply eqit_Vis. intros a. rewrite bind_ret_l. reflexivity.
Qed.

Lemma interp_perform {A B} (e : ioE A) (k : A -> task B) log :
  interp_state (handle svc) (x <~ perform e ;; k x) log
  ≈ interp_state (handle svc) (k (snd (answer svc e log))) (fst (answer svc e log)).
Proof.
  rewrite bind_perform, interp_state_vis. unfold handle. rewrite bind_ret_l.
  rewrite tau_eutt. reflexivity.
Qed.

Lemma while_True_unfold {S} (body : S -> task (flow S)) (s : S) :
  while_True body s
  ≅ (r <- body s ;;
     match r with
     | inl e => Ret (inl e)
     | inr (Continue s') => Tau (while_True body s')
     | inr (Break s') => Ret (inr s')
     end).
Proof.
  unfold while_True. rewrite unfold_iter, bind_bind.
  apply eqit_bind; [reflexivity|]. intros [e|[s'|s']]; rewrite bind_ret_l; reflexivity.
Qed.

Lemma polls_snoc log ev :
  polls (log ++ [ev]) = polls log ++ (if is_GET ev then [ev] else []).
Proof. unfold polls. rewrite filter_app. cbn. destruct (is_GET ev); reflexivity. Qed.

Lemma requests_snoc log ev :
  requests (log ++ [ev]) = requests log ++ (if is_request ev then [ev] else []).
Proof. unfold requests. rewrite filter_app. cbn. destruct (is_request ev); reflexivity. Qed.

Lemma sleeps_snoc log ev :
  sleeps (log ++ [ev]) = sleeps log ++ (if is_SLEEP ev then [ev] else []).
Proof. unfold sleeps. rewrite filter_app. cbn. destruct (is_SLEEP ev); reflexivity. Qed.

End TaskLaws.

Ltac exec_step :=
  first [ rewrite interp_perform; cbn [answer fst snd]
        | rewrite bind_assoc
        | rewrite bind_lift | rewrite bind_ret | rewrite bind_raise ].

Ltac use_eqns :=
  repeat match goal with
         | Heq : ?x = _ |- context [?x] => rewrite Heq
         end;
  cbv beta iota; cbn [negb Z.eqb Pos.eqb].

Ltac exec := repeat (exec_step; use_eqns); unfold ret, raise; rewrite ?interp_state_ret.

Ltac log_eqs :=
  rewrite ?polls_snoc, ?requests_snoc, ?sleeps_snoc; cbn;
  rewrite <- ?app_assoc; cbn; rewrite ?app_nil_r; auto.

Section Execution.
Context `{PythonRuntime}.
Variable svc : Service.


Lemma interp_poll sync_id t sr log_url start result log :
  exists log',
    interp_state (handle svc) (poll sync_id t sr log_url start result) log
    ≈ Ret (log', poll_result log_url (get svc (List.length (polls log)) sr))
    /\ polls log' = polls log ++ [GET sr]
    /\ requests log' = requests log ++ [GET sr]
    /\ sleeps log' = sleeps log ++ [SLEEP t].
Proof.
  assert (Hget : get svc (List.length (polls (log ++ [SLEEP t]))) sr
                 = get svc (List.length (polls log)) sr).
  { rewrite polls_snoc. cbn. rewrite app_nil_r. reflexivity. }
  unfold poll, poll_result, response_json.
  set (r := get svc (List.length (polls log)) sr) in *.
  destruct (json r) as [response_dict|] eqn:Hjson.
  2:{ eexists. split; [exec; reflexivity | log_eqs]. }
  destruct (negb (status_code r =? 200)%Z) eqn:Hcode.
  { eexists. split; [exec; reflexivity | log_eqs]. }
  destruct (in_keys (lit "data") response_dict) as [e|[|]] eqn:Hkeys.
  1,3: eexists; (split; [exec; reflexivity | log_eqs]).
  destruct (getitem response_dict (lit "data")) as [e|result'] eqn:Hdata.
  { eexists. split; [exec; reflexivity | log_eqs]. }
  destruct (getitem result' (lit "status")) as [e|status] eqn:Hstatus.
  { eexists. split; [exec; reflexivity | log_eqs]. }
  destruct (eq_str status (lit "working")) eqn:Hworking.
  all: eexists; (split; [exec; reflexivity | log_eqs]).
Qed.
Lemma interp_bind {A B} (t : task A) (k : A -> task B) log :
  interp_state (handle svc) (x <~ t ;; k x) log
  ≈ (lr <- interp_state (handle svc) t log ;;
     match snd lr with
     | inl e => Ret (fst lr, inl e)
     | inr a => interp_state (handle svc) (k a) (fst lr)
     end).
Proof.
  unfold bind. rewrite interp_state_bind.
  apply eutt_eq_bind. intros [log' [e|a]]; cbn; [rewrite interp_state_ret|]; reflexivity.
Qed.

Lemma interp_polling sync_id t sr log_url start n :
  forall result log final,
    (forall i, i < n ->
       exists d, poll_result log_url (get svc (List.length (polls log) + i) sr)
                 = inr (Continue d)) ->
    poll_result log_url (get svc (List.length (polls log) + n) sr) = ends final ->
    exists log',
      interp_state (handle svc)
        (while_True (poll sync_id t sr log_url start) result) log
      ≈ Ret (log', final)
      /\ polls log' = polls log ++ repeat (GET sr) (S n)
      /\ requests log' = requests log ++ repeat (GET sr) (S n)
      /\ sleeps log' = sleeps log ++ repeat (SLEEP t) (S n).
Proof.
  induction n as [|n IH]; intros result log final Hworking Hlast.
  - destruct (interp_poll sync_id t sr log_url start result log)
      as (log' & Hpoll & Hp & Hr & Hs).
    rewrite Nat.add_0_r in Hlast. rewrite Hlast in Hpoll.
    exists log'. split; [|auto].
    rewrite while_True_unfold, interp_state_bind, Hpoll, bind_ret_l.
    destruct final; cbn; rewrite interp_state_ret; reflexivity.
  - destruct (interp_poll sync_id t sr log_url start result log)
      as (log1 & Hpoll & Hp & Hr & Hs).
    destruct (Hworking 0) as [d Hd]; [lia|].
    rewrite Nat.add_0_r in Hd. rewrite Hd in Hpoll.
    destruct (IH d log1 final) as (log' & Hloop & Hp' & Hr' & Hs').
    + intros i Hi. destruct (Hworking (S i)) as [d' Hd']; [lia|].
      exists d'. rewrite Hp, length_app. cbn.
      rewrite <- Nat.add_assoc. exact Hd'.
    + rewrite Hp, length_app. cbn. rewrite <- Nat.add_assoc. exact Hlast.
    + exists log'. split.
      * rewrite while_True_unfold, interp_state_bind, Hpoll, bind_ret_l. cbn.
        rewrite interp_state_tau, tau_eutt. exact Hloop.
      * rewrite Hp', Hr', Hs', Hp, Hr, Hs, <- !app_assoc. auto.
Qed.

Lemma validates_nonempty api secret sync_id :
  validates api secret sync_id -> api <> [].
Proof. intros (m & Hm & _) ->. vm_compute in Hm. discriminate. Qed.

Lemma interp_run_started api p secret sync_id run_id :
  validates api secret sync_id ->
  started (post svc api) run_id ->
  invoke svc (run (Some api) p)
  ≈ interp_state (handle svc)
      (result <~ while_True
                   (poll (PyStr sync_id) (interval p) (sr_url_of (PyStr secret) run_id)
                         (log_url_of (PyStr sync_id)) (clock svc 0)) (PyDict []) ;;
       now <~ perform time_time ;;
       _ <~ perform (logger_info
              (Elapsed (lit "Sync " ++ format_value (PyStr sync_id)
                        ++ lit " has finished running after ")
                       (clock svc 0) now (lit " seconds."))) ;;
       _ <~ perform (logger_info
              (Message (lit "View details here: " ++ log_url_of (PyStr sync_id)
                        ++ lit "."))) ;;
       ret result)
      [POST api;
       INFO (Message (lit "Started Census sync " ++ format_value (PyStr sync_id)
                      ++ lit ", sleep time set to " ++ format_int (interval p)
                      ++ lit " seconds."));
       TIME].
Proof.
  intros Hvalid (Hcode & body & data & Hjson & Hdata & Hid).
  pose proof (validates_nonempty Hvalid) as Hne.
  destruct Hvalid as (m & Hm & Hgroups).
  unfold invoke, run, interval, response_json.
  rewrite url_pattern_compiled.
  destruct api as [|c api]; [contradiction|].
  rewrite Hm, Hgroups.
  exec. reflexivity.
Qed.

Lemma interp_run api p secret sync_id run_id n final :
  validates api secret sync_id ->
  started (post svc api) run_id ->
  (forall i, i < n ->
     exists d, poll_result (log_url_of (PyStr sync_id))
                 (get svc i (sr_url_of (PyStr secret) run_id)) = inr (Continue d)) ->
  poll_result (log_url_of (PyStr sync_id))
    (get svc n (sr_url_of (PyStr secret) run_id)) = ends final ->
  exists log,
    invoke svc (run (Some api) p) ≈ Ret (log, final)
    /\ requests log = POST api :: repeat (GET (sr_url_of (PyStr secret) run_id)) (S n)
    /\ polls log = repeat (GET (sr_url_of (PyStr secret) run_id)) (S n)
    /\ sleeps log = repeat (SLEEP (interval p)) (S n).
Proof.
  intros Hvalid Hstarted Hworking Hlast.
  set (log0 := [POST api;
                INFO (Message (lit "Started Census sync " ++ format_value (PyStr sync_id)
                               ++ lit ", sleep time set to " ++ format_int (interval p)
                               ++ lit " seconds."));
                TIME]).
  destruct (interp_polling (PyStr sync_id) (interval p) (sr_url_of (PyStr secret) run_id)
              (log_url_of (PyStr sync_id)) (clock svc 0) (n := n) (PyDict []) log0 final)
    as (log' & Hloop & Hp & Hr & Hs); [exact Hworking | exact Hlast |].
  destruct final as [e|data].
  - exists log'. split; [|auto].
    rewrite (interp_run_started p Hvalid Hstarted).
    fold log0. rewrite interp_bind, Hloop, bind_ret_l. reflexivity.
  - eexists. split.
    + rewrite (interp_run_started p Hvalid Hstarted).
      fold log0. rewrite interp_bind, Hloop, bind_ret_l. cbn [fst snd].
      exec. reflexivity.
    + rewrite ?polls_snoc, ?requests_snoc, ?sleeps_snoc. cbn [is_GET is_request is_SLEEP].
      rewrite ?app_nil_r. auto.
Qed.
End Execution.

Section EarlyExits.
Context `{PythonRuntime}.
Variable svc : Service.

Lemma interp_run_unset p :
  invoke svc (run None p) ≈ Ret ([], inl (ValueError missing_api_trigger_msg)).
Proof. unfold invoke, run, raise. rewrite interp_state_ret. reflexivity. Qed.

Lemma interp_run_empty p :
  invoke svc (run (Some []) p) ≈ Ret ([], inl (ValueError missing_api_trigger_msg)).
Proof. unfold invoke, run, raise. rewrite interp_state_ret. reflexivity. Qed.

Lemma interp_run_unmatched api p :
  api <> [] -> re.match_ url_pattern api = None ->
  invoke svc (run (Some api) p) ≈ Ret ([], inl (ValueError invalid_api_trigger_msg)).
Proof.
  intros Hne Hm. unfold invoke, run. rewrite url_pattern_compiled.
  destruct api as [|c api]; [contradiction|].
  rewrite Hm. unfold raise. rewrite interp_state_ret. reflexivity.
Qed.

Lemma interp_run_post_failed api p secret sync_id :
  validates api secret sync_id ->
  status_code (post svc api) <> 200%Z ->
  invoke svc (run (Some api) p)
  ≈ Ret ([POST api], inl (ValueError (post_failed_msg (post svc api)))).
Proof.
  intros Hvalid Hcode.
  pose proof (validates_nonempty Hvalid) as Hne.
  destruct Hvalid as (m & Hm & Hgroups).
  apply Z.eqb_neq in Hcode.
  unfold invoke, run. rewrite url_pattern_compiled.
  destruct api as [|c api]; [contradiction|].
  rewrite Hm, Hgroups.
  exec. reflexivity.
Qed.

Lemma interp_run_no_run_id api p secret sync_id e :
  validates api secret sync_id ->
  status_code (post svc api) = 200%Z ->
  run_id_of (post svc api) = inl e ->
  invoke svc (run (Some api) p)
  ≈ Ret ([POST api;
          INFO (Message (lit "Started Census sync " ++ sync_id
                         ++ lit ", sleep time set to " ++ format_int (interval p)
                         ++ lit " seconds."))],
         inl e).
Proof.
  intros Hvalid Hcode Hid.
  pose proof (validates_nonempty Hvalid) as Hne.
  destruct Hvalid as (m & Hm & Hgroups).
  unfold invoke, run, interval. rewrite url_pattern_compiled.
  destruct api as [|c api]; [contradiction|].
  rewrite Hm, Hgroups.
  unfold run_id_of in Hid.
  destruct (response_json (post svc (c :: api))) as [e1|body] eqn:Hjson.
  { injection Hid as ->. exec. reflexivity. }
  destruct (getitem body (lit "data")) as [e1|data] eqn:Hdata.
  { injection Hid as ->. exec. reflexivity. }
  exec. reflexivity.
Qed.

Lemma validated_run_posts_first api p secret sync_id :
  validates api secret sync_id -> posts_first_to (run (Some api) p) api.
Proof.
  intros Hvalid.
  pose proof (validates_nonempty Hvalid) as Hne.
  destruct Hvalid as (m & Hm & Hgroups).
  unfold posts_first_to, run. rewrite url_pattern_compiled.
  destruct api as [|c api]; [contradiction|].
  rewrite Hm, Hgroups.
  eexists. rewrite bind_perform. reflexivity.
Qed.

End EarlyExits.

(* ===================================================================== *)
(** ** What the task can end with *)
(* ===================================================================== *)

Section EnsuresLaws.
Context `{PythonRuntime}.

Lemma ensures_lift {A} (r : exn + A) (Q : exn + A -> Prop) : Q r -> ensures (lift r) Q.
Proof. intros HQ r' Hr. apply Leaf_Ret_inv in Hr. subst. exact HQ. Qed.

Lemma ensures_perform {A} (e : ioE A) (Q : exn + A -> Prop) :
  (forall x, Q (inr x)) -> ensures (perform e) Q.
Proof.
  intros HQ r Hr. unfold perform in Hr.
  apply Leaf_bind_inv in Hr. destruct Hr as (x & _ & Hr).
  apply Leaf_Ret_inv in Hr. subst. apply HQ.
Qed.

Lemma ensures_bind {A B} (t : task A) (k : A -> task B) (Q : exn + B -> Prop) :
  ensures t (fun r => match r with
                   | inl e => Q (inl e)
                   | inr a => ensures (k a) Q
                   end) ->
  ensures (x <~ t ;; k x) Q.
Proof.
  intros Ht r Hr. unfold bind in Hr.
  apply Leaf_bind_inv in Hr. destruct Hr as ([e|a] & Hin & Hr).
  - apply Leaf_Ret_inv in Hr. subst. exact (Ht _ Hin).
  - exact (Ht _ Hin _ Hr).
Qed.

Lemma ensures_while_True {S} (body : S -> task (flow S)) (init : S)
      (Q : exn + S -> Prop) :
  (forall s, ensures (body s)
               (fun r => match r with
                         | inl e => Q (inl e)
                         | inr (Continue _) => True
                         | inr (Break s') => Q (inr s')
                         end)) ->
  ensures (while_True body init) Q.
Proof.
  intros Hbody r Hr. unfold while_True in Hr.
  refine (Leaf_iter_inv _ init (fun _ => True) Q _ I r Hr).
  intros s x _ Hx.
  apply Leaf_bind_inv in Hx. destruct Hx as (y & Hy & Hx).
  specialize (Hbody s y Hy).
  destruct y as [e|[s'|s']]; apply Leaf_Ret_inv in Hx; subst; cbn; auto.
Qed.

Lemma config_is_ValueError e :
  ConfigurationError e ->
  exists rest, e = ValueError (86%N :: rest) \/ e = ValueError (73%N :: rest).
Proof. intros [->| ->]; eexists; [left|right]; reflexivity. Qed.

Lemma post_failed_not_config response :
  ~ ConfigurationError (ValueError (post_failed_msg response)).
Proof. intros Hc. apply config_is_ValueError in Hc. destruct Hc as (rest & [Hc|Hc]); discriminate. Qed.

Lemma poll_failed_not_config log_url :
  ~ ConfigurationError (ValueError (poll_failed_msg log_url)).
Proof. intros Hc. apply config_is_ValueError in Hc. destruct Hc as (rest & [Hc|Hc]); discriminate. Qed.

End EnsuresLaws.

Ltac ensure_step :=
  cbv beta iota;
  lazymatch goal with
  | |- ensures (bind _ _) _ => apply ensures_bind
  | |- ensures (perform _) _ => apply ensures_perform; intros ?
  | |- ensures (while_True _ _) _ => apply ensures_while_True; intros ?
  | |- ensures (lift ?v) _ => apply ensures_lift; destruct v eqn:?
  | |- ensures (ret _) _ => apply ensures_lift
  | |- ensures (raise _) _ => apply ensures_lift
  | |- ensures (if ?c then _ else _) _ => destruct c eqn:?
  | |- ensures (poll _ _ _ _ _ _) _ => unfold poll
  end.

Ltac not_config :=
  cbv beta iota; cbn [no_config];
  try exact I;
  try apply post_failed_not_config;
  try apply poll_failed_not_config;
  try match goal with
      | Hr : getitem _ _ = inl ?e |- ~ ConfigurationError ?e =>
          destruct (getitem_raises _ _ Hr) as [-> | ->]; intros [Hc|Hc]; discriminate
      | Hr : in_keys _ _ = inl ?e |- ~ ConfigurationError ?e =>
          rewrite (in_keys_raises _ _ Hr); intros [Hc|Hc]; discriminate
      | Hr : response_json _ = inl ?e |- ~ ConfigurationError ?e =>
          rewrite (response_json_raises _ Hr); intros [Hc|Hc]; discriminate
      end.

Section Postconditions.
Context `{PythonRuntime}.


Lemma validated_run_no_config api p m :
  re.match_ url_pattern api = Some m ->
  ensures (run (Some api) p) no_config.
Proof.
  intros Hm. destruct (match_groups _ Hm) as (secret & sync_id & _ & Hgroups & _).
  unfold run. rewrite url_pattern_compiled.
  destruct api as [|c api]; [vm_compute in Hm; discriminate|].
  rewrite Hm, Hgroups.
  repeat ensure_step; not_config.
Qed.

End Postconditions.

(* ===================================================================== *)
(** ** The properties of the specification *)
(* ===================================================================== *)

Section Properties.
Context `{PythonRuntime}.

(** C1. When the polls answer "working" [n] times and the poll after them
    carries another status, [run] issues exactly [n + 1] GET requests, all to
    the status URL, stops there, and returns the [data] object of that last
    response as it is. *)
Theorem run_returns_terminal_payload svc api p secret sync_id run_id n data :
  validates api secret sync_id ->
  started (post svc api) run_id ->
  (forall i, i < n -> still_working (get svc i (sr_url_of (PyStr secret) run_id))) ->
  terminal (get svc n (sr_url_of (PyStr secret) run_id)) data ->
  exists log,
    invoke svc (run (Some api) p) ≈ Ret (log, inr data)
    /\ polls log = repeat (GET (sr_url_of (PyStr secret) run_id)) (S n)
    /\ requests log = POST api :: repeat (GET (sr_url_of (PyStr secret) run_id)) (S n).
Proof.
  intros Hvalid Hstarted Hworking Hterminal.
  destruct (@interp_run _ svc api p secret sync_id run_id n (inr data))
    as (log & Hrun & Hr & Hp & _); auto.
  - intros i Hi. apply still_working_continues, Hworking, Hi.
  - apply terminal_ends, Hterminal.
  - exists log. auto.
Qed.

(** C2. When the trigger POST is answered with a status other than 200,
    [run] raises the error of the trigger step, whose message carries the
    status code and the response text as they are, and the POST is the only
    thing it has done: no poll is issued. *)
Theorem failed_trigger_raises svc api p secret sync_id :
  validates api secret sync_id ->
  status_code (post svc api) <> 200%Z ->
  invoke svc (run (Some api) p)
  ≈ Ret ([POST api],
         inl (ValueError (lit "Sent POST, failed with status code "
                          ++ format_int (status_code (post svc api))
                          ++ lit ": " ++ text (post svc api) ++ lit ".")))
  /\ RemoteServiceError (ValueError (post_failed_msg (post svc api)))
  /\ polls [POST api] = [].
Proof.
  intros Hvalid Hcode. split; [|split].
  - exact (interp_run_post_failed svc p Hvalid Hcode).
  - left. eexists. reflexivity.
  - reflexivity.
Qed.

(** C3 (the code departs from it). The first poll is answered 502 with an
    error page that is not JSON: [run] ends with the decoding error of
    [status_response.json()], which is raised before the status is looked
    at, and not with the error that points to the Census logs. *)
Theorem poll_error_page_raises_decode_error :
  forall p,
  json (get failing_poll 0 example_sr_url) = None
  /\ status_code (get failing_poll 0 example_sr_url) = 502%Z
  /\ exists log,
       invoke failing_poll (run (Some example_trigger) p)
       ≈ Ret (log, inl JSONDecodeError)
       /\ polls log = [GET example_sr_url]
       /\ ~ RemoteServiceError JSONDecodeError.
Proof.
  intros p. split; [reflexivity|]. split; [reflexivity|].
  destruct (@interp_run _ failing_poll example_trigger p (lit "abc123") (lit "42")
              (PyStr (lit "r9")) 0 (inl JSONDecodeError))
    as (log & Hrun & _ & Hp & _).
  - eexists. split; vm_compute; reflexivity.
  - split; [reflexivity|]. do 2 eexists. repeat split; vm_compute; reflexivity.
  - intros i Hi. lia.
  - apply undecodable_ends. reflexivity.
  - exists log. split; [exact Hrun|]. split; [exact Hp|].
    intros [[r Hr]|[u Hu]]; discriminate.
Qed.

(** What does hold of a failing poll: when its body decodes and either the
    status is not 200 or the body is a dict without [data], the run ends at
    that poll with the error that points to
    [https://app.getcensus.com/syncs/<sync id>/sync-history]. *)
Lemma decoded_poll_failure_points_to_logs svc api p secret sync_id run_id n body :
  validates api secret sync_id ->
  started (post svc api) run_id ->
  (forall i, i < n -> still_working (get svc i (sr_url_of (PyStr secret) run_id))) ->
  json (get svc n (sr_url_of (PyStr secret) run_id)) = Some body ->
  status_code (get svc n (sr_url_of (PyStr secret) run_id)) <> 200%Z
  \/ in_keys (lit "data") body = inr false ->
  exists log,
    invoke svc (run (Some api) p)
    ≈ Ret (log,
           inl (ValueError
                  (lit "Getting status of sync failed, please visit Census Logs at "
                   ++ (lit "https://app.getcensus.com/syncs/" ++ sync_id
                       ++ lit "/sync-history")
                   ++ lit " to see more.")))
    /\ polls log = repeat (GET (sr_url_of (PyStr secret) run_id)) (S n).
Proof.
  intros Hvalid Hstarted Hworking Hjson Hbad.
  destruct (@interp_run _ svc api p secret sync_id run_id n
              (inl (ValueError (poll_failed_msg (log_url_of (PyStr sync_id))))))
    as (log & Hrun & _ & Hp & _); auto.
  - intros i Hi. apply still_working_continues, Hworking, Hi.
  - exact (poll_failure_reported _ _ Hjson Hbad).
  - exists log. auto.
Qed.

(** X12. A non-empty [api_trigger] that does not start with a trigger URL as
    the pattern reads one ([https://bearer:secret-token:], any text without a
    newline, [@app], any character but a newline, [getcensus], any character
    but a newline, [com/api/v1/syncs/], any run of digits, [/trigger], each of
    the two texts possibly empty) ends the run with the error of an invalid
    endpoint, before anything else is done. *)
Theorem unmatched_endpoint_is_rejected svc api p :
  api <> [] ->
  (forall secret sync_id, ~ starts_with_trigger api secret sync_id) ->
  invoke svc (run (Some api) p) ≈ Ret ([], inl (ValueError invalid_api_trigger_msg))
  /\ ConfigurationError (ValueError invalid_api_trigger_msg).
Proof.
  intros Hne Hno. split.
  - apply interp_run_unmatched; [exact Hne|]. apply no_trigger_no_match, Hno.
  - right. reflexivity.
Qed.

(** C5. Every sleep of a run uses one interval [t], which is
    [max(5, poll_status_every_n_seconds)]: 5 for a value of at most 5, the
    value itself above 5, and 60 when the caller gives none. The run is any
    one that ends, by a return or an exception, at its [n + 1]-th poll. *)
Theorem sleep_interval_is_clamped svc api p secret sync_id run_id n final :
  validates api secret sync_id ->
  started (post svc api) run_id ->
  (forall i, i < n -> still_working (get svc i (sr_url_of (PyStr secret) run_id))) ->
  poll_result (log_url_of (PyStr sync_id))
    (get svc n (sr_url_of (PyStr secret) run_id)) = ends final ->
  exists log t,
    invoke svc (run (Some api) p) ≈ Ret (log, final)
    /\ sleeps log = repeat (SLEEP t) (S n)
    /\ match p with
       | Some v => t = Z.max 5 v /\ (v <= 5 -> t = 5)%Z /\ (5 < v -> t = v)%Z
       | None => t = 60%Z
       end.
Proof.
  intros Hvalid Hstarted Hworking Hlast.
  destruct (@interp_run _ svc api p secret sync_id run_id n final)
    as (log & Hrun & _ & _ & Hs); auto.
  - intros i Hi. apply still_working_continues, Hworking, Hi.
  - exists log, (interval p). split; [exact Hrun|]. split; [exact Hs|].
    unfold interval, MIN_WAIT_TIME, DEFAULT_WAIT_TIME. destruct p as [v|]; lia.
Qed.

(** C6. With no [api_trigger] at all, or with the empty string, [run]
    raises the error of a missing endpoint. *)
Theorem missing_endpoint_is_rejected svc p :
  invoke svc (run None p) ≈ Ret ([], inl (ValueError missing_api_trigger_msg))
  /\ invoke svc (run (Some []) p) ≈ Ret ([], inl (ValueError missing_api_trigger_msg))
  /\ ConfigurationError (ValueError missing_api_trigger_msg).
Proof.
  split; [apply interp_run_unset|]. split; [apply interp_run_empty|].
  left. reflexivity.
Qed.

(** C7. An invocation that ends with a [ConfigurationError] has done
    nothing before: its log is empty, so no request of any kind was issued. *)
Theorem configuration_error_precedes_any_request svc api p log e :
  invoke svc (run api p) ≈ Ret (log, inl e) ->
  ConfigurationError e ->
  log = [].
Proof.
  intros Hrun Hconfig.
  assert (Hret : forall (x : exn + pyobj),
             invoke svc (run api p) ≈ Ret ([], x) -> log = []).
  { intros x Hx. rewrite Hx in Hrun. apply eutt_inv_Ret in Hrun. congruence. }
  destruct api as [[|c api]|].
  - exact (Hret _ (interp_run_empty svc p)).
  - destruct (re.match_ url_pattern (c :: api)) as [m|] eqn:Hm.
    + exfalso.
      assert (Hleaf : (log, inl e) ∈ invoke svc (run (Some (c :: api)) p)).
      { rewrite Hrun. apply Leaf_Ret. }
      apply Leaf_interp_state_inv in Hleaf.
      exact (@validated_run_no_config _ (c :: api) p m Hm _ Hleaf Hconfig).
    + apply (Hret (inl (ValueError invalid_api_trigger_msg))).
      apply interp_run_unmatched; [discriminate | exact Hm].
  - exact (Hret _ (interp_run_unset svc p)).
Qed.

(** C8. When the trigger is answered 200 with a decoded body that has no
    [data.sync_run_id], [run] ends with the plain failure of the subscript
    (a [KeyError] for the absent key, a [TypeError] when what is subscripted
    is no dict), which is neither of the two error classes; the POST is the
    only request made. *)
Theorem missing_run_id_is_lookup_failure svc api p secret sync_id body :
  validates api secret sync_id ->
  status_code (post svc api) = 200%Z ->
  json (post svc api) = Some body ->
  ~ has_sync_run_id body ->
  exists log e,
    invoke svc (run (Some api) p) ≈ Ret (log, inl e)
    /\ requests log = [POST api]
    /\ (e = KeyError (lit "data") \/ e = KeyError (lit "sync_run_id") \/ e = TypeError)
    /\ ~ ConfigurationError e /\ ~ RemoteServiceError e.
Proof.
  intros Hvalid Hcode Hjson Hno.
  destruct (missing_run_id_raises _ Hjson Hno) as (e & He & Hkind).
  eexists. exists e. split; [|split; [|split; [exact Hkind|]]].
  - exact (interp_run_no_run_id svc p Hvalid Hcode He).
  - reflexivity.
  - split.
    + intros [Hc|Hc]; destruct Hkind as [->|[->| ->]]; discriminate.
    + intros [[r Hc]|[u Hc]]; destruct Hkind as [->|[->| ->]]; discriminate.
Qed.

(** C9. For a validated endpoint, whose secret is the text between
    [secret-token:] and [@app] in it, and the run identifier of the trigger
    response, every poll goes to
    [https://bearer:secret-token:<secret>@app.getcensus.com/api/v1/sync_runs/<run id>],
    the run identifier printed as an f-string prints it. The run is any one
    that ends, by a return or an exception, at its [n + 1]-th poll. *)
Theorem status_url_is_built_from_secret_and_run_id
        svc api p secret sync_id run_id n final :
  validates api secret sync_id ->
  started (post svc api) run_id ->
  (forall i, i < n -> still_working (get svc i (sr_url_of (PyStr secret) run_id))) ->
  poll_result (log_url_of (PyStr sync_id))
    (get svc n (sr_url_of (PyStr secret) run_id)) = ends final ->
  starts_with_trigger api secret sync_id
  /\ exists log,
       invoke svc (run (Some api) p) ≈ Ret (log, final)
       /\ polls log
          = repeat (GET (lit "https://bearer:secret-token:" ++ secret
                         ++ lit "@app.getcensus.com/api/v1/sync_runs/"
                         ++ format_value run_id)) (S n).
Proof.
  intros Hvalid Hstarted Hworking Hlast.
  split; [exact (validates_starts Hvalid)|].
  destruct (@interp_run _ svc api p secret sync_id run_id n final)
    as (log & Hrun & _ & Hp & _); auto.
  - intros i Hi. apply still_working_continues, Hworking, Hi.
  - exists log. auto.
Qed.

(** C10. The pattern is anchored at the start only and its groups may be
    empty: a trigger URL followed by more text, one with an empty secret and
    one with an empty sync id all pass validation, and the first thing [run]
    then does is the POST to the string as given. *)
Theorem lenient_endpoints_are_posted_to p :
  (validates trigger_with_tail (lit "abc123") (lit "42")
   /\ posts_first_to (run (Some trigger_with_tail) p) trigger_with_tail)
  /\ (validates trigger_empty_secret [] (lit "42")
      /\ posts_first_to (run (Some trigger_empty_secret) p) trigger_empty_secret)
  /\ (validates trigger_empty_id (lit "abc123") []
      /\ posts_first_to (run (Some trigger_empty_id) p) trigger_empty_id).
Proof.
  assert (Ha : validates trigger_with_tail (lit "abc123") (lit "42")).
  { eexists. split; vm_compute; reflexivity. }
  assert (Hb : validates trigger_empty_secret [] (lit "42")).
  { eexists. split; vm_compute; reflexivity. }
  assert (Hc : validates trigger_empty_id (lit "abc123") []).
  { eexists. split; vm_compute; reflexivity. }
  repeat split; try assumption; eapply validated_run_posts_first; eassumption.
Qed.

End Properties.

(* ===================================================================== *)
(** ** The properties at concrete inputs *)
(* ===================================================================== *)

Section Instances.
#[local] Existing Instance example_runtime.

Lemma example_trigger_validates :
  validates example_trigger (lit "abc123") (lit "42").
Proof. eexists. split; vm_compute; reflexivity. Defined.

Lemma trigger_reply_started : started trigger_reply (PyStr (lit "r9")).
Proof. split; [reflexivity|]. do 2 eexists. repeat split; vm_compute; reflexivity. Defined.

Lemma working_reply_still_working : still_working working_reply.
Proof. split; [reflexivity|]. do 3 eexists. repeat split; vm_compute; reflexivity. Defined.

Lemma completed_reply_terminal : terminal completed_reply completed_data.
Proof. split; [reflexivity|]. do 2 eexists. repeat split; vm_compute; reflexivity. Defined.

(** The scenario of the specification, run step by step: two polls, and the
    second response's data comes back. *)
Example scenario_runs :
  exists log,
    steps 64 (invoke two_polls (run (Some example_trigger) None))
    = Some (log, inr completed_data)
    /\ requests log = [POST example_trigger; GET example_sr_url; GET example_sr_url]
    /\ sleeps log = [SLEEP 60; SLEEP 60].
Proof. eexists. split; [vm_compute; reflexivity|]. split; vm_compute; reflexivity. Qed.

(** C1 at "working", "working", "completed": three polls, and the third
    response's data. *)
Lemma three_polls_return_third_payload :
  exists log,
    invoke three_polls (run (Some example_trigger) None) ≈ Ret (log, inr completed_data)
    /\ polls log = repeat (GET example_sr_url) 3
    /\ requests log = POST example_trigger :: repeat (GET example_sr_url) 3.
Proof.
  apply (@run_returns_terminal_payload example_runtime three_polls example_trigger None
           (lit "abc123") (lit "42") (PyStr (lit "r9")) 2 completed_data).
  - exact example_trigger_validates.
  - exact trigger_reply_started.
  - intros i Hi. destruct i as [|[|i]]; [exact working_reply_still_working .. | lia].
  - exact completed_reply_terminal.
Defined.

(** C2 at a trigger answered 500. *)
Lemma trigger_500_raises :
  invoke failing_trigger (run (Some example_trigger) None)
  ≈ Ret ([POST example_trigger],
         inl (ValueError (lit "Sent POST, failed with status code 500: Internal Server Error.")))
  /\ RemoteServiceError (ValueError (post_failed_msg (post failing_trigger example_trigger)))
  /\ polls [POST example_trigger] = [].
Proof.
  apply (@failed_trigger_raises example_runtime failing_trigger example_trigger None
           (lit "abc123") (lit "42")).
  - exact example_trigger_validates.
  - vm_compute. discriminate.
Defined.

Lemma last_of_trigger (l : str) : last (l ++ lit "/trigger") 0%N = 114%N.
Proof.
  change (lit "/trigger") with (lit "/trigge" ++ [114%N]).
  rewrite app_assoc. apply last_last.
Qed.

(** C4 (the code departs from it). A trigger URL followed by [?x=1] is not
    empty and not of the endpoint shape, yet [run] does not end with a
    configuration error: the match of line 65 is anchored at the start only,
    the string passes validation and is posted to, and against a trigger
    answered 500 the error that comes back is the failed trigger's. *)
Lemma trailing_text_is_not_rejected :
  trigger_with_tail <> []
  /\ ~ trigger_endpoint_shape trigger_with_tail
  /\ ~ (exists log e,
          invoke failing_trigger (run (Some trigger_with_tail) None) ≈ Ret (log, inl e)
          /\ ConfigurationError e).
Proof.
  split; [discriminate|]. split.
  - intros (secret & sync_id & Heq & _).
    apply (f_equal (fun l => last l 0%N)) in Heq.
    rewrite !app_assoc, last_of_trigger in Heq. vm_compute in Heq. discriminate.
  - intros (log & e & Hrun & Hconfig).
    assert (Hvalid : validates trigger_with_tail (lit "abc123") (lit "42")).
    { eexists. split; vm_compute; reflexivity. }
    assert (Hcode : status_code (post failing_trigger trigger_with_tail) <> 200%Z).
    { vm_compute. discriminate. }
    rewrite (interp_run_post_failed failing_trigger None Hvalid Hcode) in Hrun.
    apply eutt_inv_Ret in Hrun. injection Hrun as _ <-.
    exact (post_failed_not_config Hconfig).
Qed.

(** X12 at an endpoint whose scheme is in upper case. *)
Lemma upper_case_scheme_is_rejected :
  invoke failing_trigger (run (Some trigger_upper_scheme) None)
  ≈ Ret ([], inl (ValueError invalid_api_trigger_msg))
  /\ ConfigurationError (ValueError invalid_api_trigger_msg).
Proof.
  apply (@unmatched_endpoint_is_rejected example_runtime failing_trigger
           trigger_upper_scheme None).
  - discriminate.
  - apply no_match_no_trigger. vm_compute. reflexivity.
Defined.

(** C5 at a requested interval of 3 seconds: every sleep lasts 5. *)
Lemma three_second_interval_sleeps_five :
  exists log t,
    invoke three_polls (run (Some example_trigger) (Some 3%Z)) ≈ Ret (log, inr completed_data)
    /\ sleeps log = repeat (SLEEP t) 3
    /\ (t = Z.max 5 3 /\ (3 <= 5 -> t = 5)%Z /\ (5 < 3 -> t = 3)%Z).
Proof.
  apply (@sleep_interval_is_clamped example_runtime three_polls example_trigger (Some 3%Z)
           (lit "abc123") (lit "42") (PyStr (lit "r9")) 2 (inr completed_data)).
  - exact example_trigger_validates.
  - exact trigger_reply_started.
  - intros i Hi. destruct i as [|[|i]]; [exact working_reply_still_working .. | lia].
  - vm_compute. reflexivity.
Defined.

(** C7 at an invocation without an endpoint. *)
Lemma no_endpoint_no_request :
  invoke failing_trigger (run None None)
  ≈ Ret ([], inl (ValueError missing_api_trigger_msg))
  /\ ([] : list io_event) = [].
Proof.
  split.
  - apply interp_run_unset.
  - apply (@configuration_error_precedes_any_request example_runtime failing_trigger
             None None [] (ValueError missing_api_trigger_msg)).
    + apply interp_run_unset.
    + left. reflexivity.
Defined.

(** C8 at a trigger answered [{"data": {}}]. *)
Lemma empty_data_is_key_error :
  exists log e,
    invoke no_run_id (run (Some example_trigger) None) ≈ Ret (log, inl e)
    /\ requests log = [POST example_trigger]
    /\ (e = KeyError (lit "data") \/ e = KeyError (lit "sync_run_id") \/ e = TypeError)
    /\ ~ ConfigurationError e /\ ~ RemoteServiceError e.
Proof.
  apply (@missing_run_id_is_lookup_failure example_runtime no_run_id example_trigger None
           (lit "abc123") (lit "42") (PyDict [(lit "data", PyDict [])])).
  - exact example_trigger_validates.
  - reflexivity.
  - reflexivity.
  - intros (items & data_items & v & Hbody & Hdata & Hv).
    injection Hbody as <-. vm_compute in Hdata. injection Hdata as <-.
    vm_compute in Hv. discriminate.
Defined.

(** C9 at the example endpoint and the run identifier [r9]. *)
Lemma polls_go_to_the_status_url :
  starts_with_trigger example_trigger (lit "abc123") (lit "42")
  /\ exists log,
       invoke three_polls (run (Some example_trigger) None) ≈ Ret (log, inr completed_data)
       /\ polls log
          = repeat (GET (lit "https://bearer:secret-token:" ++ lit "abc123"
                         ++ lit "@app.getcensus.com/api/v1/sync_runs/"
                         ++ format_value (PyStr (lit "r9")))) 3.
Proof.
  apply (@status_url_is_built_from_secret_and_run_id example_runtime three_polls
           example_trigger None (lit "abc123") (lit "42") (PyStr (lit "r9")) 2
           (inr completed_data)).
  - exact example_trigger_validates.
  - exact trigger_reply_started.
  - intros i Hi. destruct i as [|[|i]]; [exact working_reply_still_working .. | lia].
  - vm_compute. reflexivity.
Defined.

End Instances.

(* ===================================================================== *)
(** ** Further properties of [run] *)
(* ===================================================================== *)

Section FurtherProperties.
Context `{PythonRuntime}.

(** X2. [run] goes on to the POST exactly for the strings that start with a
    trigger URL as the pattern reads one, and then posts to the string as it
    was given. *)
Theorem posts_iff_starts_with_trigger api p :
  posts_first_to (run (Some api) p) api
  <-> exists secret sync_id, starts_with_trigger api secret sync_id.
Proof.
  split.
  - intros [k Hk].
    destruct (re.match_ url_pattern api) as [m|] eqn:Hm.
    + destruct (match_groups _ Hm) as (secret & sync_id & _ & _ & Hs). eauto.
    + exfalso. unfold run in Hk. rewrite url_pattern_compiled in Hk.
      destruct api as [|c api]; [|rewrite Hm in Hk];
        apply eqit_inv in Hk; exact Hk.
  - intros (secret & sync_id & Hs).
    destruct (re.match_ url_pattern api) as [m|] eqn:Hm.
    + destruct (match_groups _ Hm) as (secret' & sync_id' & _ & Hg & _).
      apply validated_run_posts_first with (secret := secret') (sync_id := sync_id').
      exists m. auto.
    + destruct (match_complete Hs Hm).
Qed.

(** X4. A poll whose body decodes and whose status is not 200, or whose body
    is a dict without [data], ends the run after [n] "working" polls with the
    error that names the sync-history page of the sync. *)
Theorem decoded_poll_failure_names_log_url svc api p secret sync_id run_id n body :
  validates api secret sync_id ->
  started (post svc api) run_id ->
  (forall i, i < n -> still_working (get svc i (sr_url_of (PyStr secret) run_id))) ->
  json (get svc n (sr_url_of (PyStr secret) run_id)) = Some body ->
  status_code (get svc n (sr_url_of (PyStr secret) run_id)) <> 200%Z
  \/ in_keys (lit "data") body = inr false ->
  exists log,
    invoke svc (run (Some api) p)
    ≈ Ret (log,
           inl (ValueError
                  (lit "Getting status of sync failed, please visit Census Logs at "
                   ++ (lit "https://app.getcensus.com/syncs/" ++ sync_id
                       ++ lit "/sync-history")
                   ++ lit " to see more.")))
    /\ requests log = POST api :: repeat (GET (sr_url_of (PyStr secret) run_id)) (S n).
Proof.
  intros Hvalid Hstarted Hworking Hjson Hbad.
  destruct (@interp_run _ svc api p secret sync_id run_id n
              (inl (ValueError (poll_failed_msg (log_url_of (PyStr sync_id))))))
    as (log & Hrun & Hr & _); auto.
  - intros i Hi. apply still_working_continues, Hworking, Hi.
  - exact (poll_failure_reported _ _ Hjson Hbad).
  - exists log. auto.
Qed.

(** X5. A poll answered 200 with a decoded body that is no dict (a list, a
    string, a number, [null]) ends the run with the [AttributeError] of
    [response_dict.keys()]. *)
Theorem non_dict_poll_body_raises_attribute_error
        svc api p secret sync_id run_id n body :
  validates api secret sync_id ->
  started (post svc api) run_id ->
  (forall i, i < n -> still_working (get svc i (sr_url_of (PyStr secret) run_id))) ->
  status_code (get svc n (sr_url_of (PyStr secret) run_id)) = 200%Z ->
  json (get svc n (sr_url_of (PyStr secret) run_id)) = Some body ->
  (forall items, body <> PyDict items) ->
  exists log,
    invoke svc (run (Some api) p) ≈ Ret (log, inl AttributeError)
    /\ requests log = POST api :: repeat (GET (sr_url_of (PyStr secret) run_id)) (S n).
Proof.
  intros Hvalid Hstarted Hworking Hcode Hjson Hbody.
  destruct (@interp_run _ svc api p secret sync_id run_id n (inl AttributeError))
    as (log & Hrun & Hr & _); auto.
  - intros i Hi. apply still_working_continues, Hworking, Hi.
  - unfold poll_result, response_json. rewrite Hjson, Hcode. cbn [negb Z.eqb Pos.eqb].
    destruct body; try reflexivity. destruct (Hbody items eq_refl).
  - exists log. auto.
Qed.

(** X6. A poll answered 200 whose [data] has no [status] ends the run with
    the failure of the subscript: [KeyError('status')] when [data] is a
    dict, [TypeError] when it is not. *)
Theorem poll_without_status_raises_lookup_error
        svc api p secret sync_id run_id n body data :
  validates api secret sync_id ->
  started (post svc api) run_id ->
  (forall i, i < n -> still_working (get svc i (sr_url_of (PyStr secret) run_id))) ->
  status_code (get svc n (sr_url_of (PyStr secret) run_id)) = 200%Z ->
  json (get svc n (sr_url_of (PyStr secret) run_id)) = Some body ->
  getitem body (lit "data") = inr data ->
  (forall items v, data = PyDict items -> dict_get items (lit "status") <> Some v) ->
  exists log e,
    invoke svc (run (Some api) p) ≈ Ret (log, inl e)
    /\ (e = match data with
            | PyDict _ => KeyError (lit "status")
            | _ => TypeError
            end)
    /\ requests log = POST api :: repeat (GET (sr_url_of (PyStr secret) run_id)) (S n).
Proof.
  intros Hvalid Hstarted Hworking Hcode Hjson Hdata Hnone.
  set (e := match data with PyDict _ => KeyError (lit "status") | _ => TypeError end).
  assert (He : getitem data (lit "status") = inl e).
  { subst e. destruct data; try reflexivity. cbn [getitem].
    destruct (dict_get items (lit "status")) as [v|] eqn:Hv; [|reflexivity].
    destruct (Hnone items v eq_refl Hv). }
  destruct (@interp_run _ svc api p secret sync_id run_id n (inl e))
    as (log & Hrun & Hr & _); auto.
  - intros i Hi. apply still_working_continues, Hworking, Hi.
  - unfold poll_result, response_json.
    rewrite Hjson, Hcode, (getitem_in_keys _ _ Hdata), Hdata, He. reflexivity.
  - exists log, e. auto.
Qed.

(** X7. A trigger answered 200 with a body that is not JSON: the start
    message has been logged, [response.json()] raises, and no poll is made. *)
Theorem undecodable_trigger_body_raises svc api p secret sync_id :
  validates api secret sync_id ->
  status_code (post svc api) = 200%Z ->
  json (post svc api) = None ->
  invoke svc (run (Some api) p)
  ≈ Ret ([POST api;
          INFO (Message (lit "Started Census sync " ++ sync_id
                         ++ lit ", sleep time set to "
                         ++ format_int (Z.max 5 match p with Some v => v | None => 60 end)
                         ++ lit " seconds."))],
         inl JSONDecodeError).
Proof.
  intros Hvalid Hcode Hjson.
  apply (interp_run_no_run_id svc p Hvalid Hcode).
  unfold run_id_of, response_json. rewrite Hjson. reflexivity.
Qed.

End FurtherProperties.

Section LoopInvariants.
Context `{PythonRuntime}.
Variable svc : Service.

Lemma traffic_snoc log ev :
  traffic (log ++ [ev]) = traffic log ++ (if is_traffic ev then [ev] else []).
Proof. unfold traffic. rewrite filter_app. cbn. destruct (is_traffic ev); reflexivity. Qed.

Lemma rounds_snoc t url k :
  rounds t url k ++ [SLEEP t; GET url] = rounds t url (S k).
Proof. induction k as [|k IH]; [reflexivity|]. cbn [rounds app]. rewrite IH. reflexivity. Qed.

(** One iteration, in the traffic: a sleep, then a GET. *)
Lemma interp_poll_traffic sync_id t sr log_url start result log :
  exists log',
    interp_state (handle svc) (poll sync_id t sr log_url start result) log
    ≈ Ret (log', poll_result log_url (get svc (List.length (polls log)) sr))
    /\ traffic log' = traffic log ++ [SLEEP t; GET sr].
Proof.
  assert (Hget : get svc (List.length (polls (log ++ [SLEEP t]))) sr
                 = get svc (List.length (polls log)) sr).
  { rewrite polls_snoc. cbn. rewrite app_nil_r. reflexivity. }
  assert (Htraffic : forall tail,
             traffic tail = [] ->
             traffic (((log ++ [SLEEP t]) ++ [GET sr]) ++ tail)
             = traffic log ++ [SLEEP t; GET sr]).
  { intros tail Htail. unfold traffic in *. rewrite !filter_app, Htail. cbn.
    rewrite app_nil_r, <- app_assoc. reflexivity. }
  unfold poll, poll_result, response_json.
  set (r := get svc (List.length (polls log)) sr) in *.
  destruct (json r) as [response_dict|] eqn:Hjson.
  2:{ eexists. split; [exec; reflexivity|].
      rewrite <- (app_nil_r (_ ++ [GET sr])). apply Htraffic. reflexivity. }
  destruct (negb (status_code r =? 200)%Z) eqn:Hcode.
  { eexists. split; [exec; reflexivity|].
    rewrite <- (app_nil_r (_ ++ [GET sr])). apply Htraffic. reflexivity. }
  destruct (in_keys (lit "data") response_dict) as [e|[|]] eqn:Hkeys.
  1,3: eexists; (split; [exec; reflexivity|]);
       rewrite <- (app_nil_r (_ ++ [GET sr])); apply Htraffic; reflexivity.
  destruct (getitem response_dict (lit "data")) as [e|result'] eqn:Hdata.
  { eexists. split; [exec; reflexivity|].
    rewrite <- (app_nil_r (_ ++ [GET sr])). apply Htraffic. reflexivity. }
  destruct (getitem result' (lit "status")) as [e|status] eqn:Hstatus.
  { eexists. split; [exec; reflexivity|].
    rewrite <- (app_nil_r (_ ++ [GET sr])). apply Htraffic. reflexivity. }
  destruct (eq_str status (lit "working")) eqn:Hworking.
  - eexists. split; [exec; reflexivity|].
    rewrite <- !app_assoc. rewrite !app_assoc.
    rewrite <- (app_assoc _ [TIME] [_]). apply Htraffic. reflexivity.
  - eexists. split; [exec; reflexivity|].
    rewrite <- (app_nil_r (_ ++ [GET sr])). apply Htraffic. reflexivity.
Qed.

End LoopInvariants.

Section LoopInvariants2.
Context `{PythonRuntime}.
Variable svc : Service.

(** One pass of the loop of [while_True], interpreted. *)
Lemma interp_loop_body sync_id t sr log_url start result log :
  exists log',
    interp_state (handle svc)
      (r <- poll sync_id t sr log_url start result ;;
       match r with
       | inl e => Ret (inr (inl e))
       | inr (Continue s') => Ret (inl s')
       | inr (Break s') => Ret (inr (inr s'))
       end) log
    ≈ Ret (log',
           match poll_result log_url (get svc (List.length (polls log)) sr) with
           | inl e => inr (inl e)
           | inr (Continue s') => inl s'
           | inr (Break s') => inr (inr s')
           end)
    /\ polls log' = polls log ++ [GET sr]
    /\ traffic log' = traffic log ++ [SLEEP t; GET sr].
Proof.
  destruct (interp_poll svc sync_id t sr log_url start result log)
    as (log1 & Hpoll & Hp & _).
  destruct (interp_poll_traffic svc sync_id t sr log_url start result log)
    as (log2 & Hpoll' & Ht).
  assert (log2 = log1) as ->.
  { rewrite Hpoll in Hpoll'. apply eutt_inv_Ret in Hpoll'. congruence. }
  exists log1. split; [|auto].
  rewrite interp_state_bind, Hpoll, bind_ret_l. cbn [fst snd].
  destruct (poll_result _ _) as [e|[s'|s']]; rewrite interp_state_ret; reflexivity.
Qed.

End LoopInvariants2.

Section Unbounded.
Context `{PythonRuntime}.

(** X8. The loop has no bound of its own: against a sync whose status stays
    "working", an invocation never ends, neither by a return nor by an
    exception. *)
Theorem always_working_never_ends svc api p secret sync_id run_id :
  validates api secret sync_id ->
  started (post svc api) run_id ->
  (forall i, still_working (get svc i (sr_url_of (PyStr secret) run_id))) ->
  ~ exists log r, invoke svc (run (Some api) p) ≈ Ret (log, r).
Proof.
  intros Hvalid Hstarted Hall (log & r & Hret).
  assert (Hleaf : (log, r) ∈ invoke svc (run (Some api) p)).
  { rewrite Hret. apply Leaf_Ret. }
  rewrite (interp_run_started svc p Hvalid Hstarted), interp_bind in Hleaf.
  apply Leaf_bind_inv in Hleaf. destruct Hleaf as ([log1 r1] & Hloop & _).
  unfold while_True in Hloop.
  apply (Leaf_interp_state_iter_inv (handle svc) _
           (fun _ => True) (fun _ => True) (fun _ => False)) in Hloop; auto.
  - unfold prod_pred in Hloop. destruct Hloop as [_ []].
  - intros log2 result _ _ sx Hsx.
    destruct (interp_loop_body svc (PyStr sync_id) (interval p)
                (sr_url_of (PyStr secret) run_id) (log_url_of (PyStr sync_id))
                (clock svc 0) result log2) as (log' & Hbody & _).
    rewrite Hbody in Hsx. apply Leaf_Ret_inv in Hsx. subst sx.
    destruct (still_working_continues (log_url_of (PyStr sync_id))
                (Hall (List.length (polls log2)))) as [d Hd].
    rewrite Hd. unfold prod_pred, sum_pred. auto.
Qed.

(** X9. Whatever the service answers, the requests and sleeps of a finished
    invocation are nothing at all, or the POST to [api_trigger] followed by
    rounds of one sleep of the interval and one GET, all GETs to one URL: no
    second POST, no poll before the POST, no poll without a sleep before it. *)
Theorem traffic_is_post_then_rounds svc api p log r :
  invoke svc (run api p) ≈ Ret (log, r) ->
  traffic log = []
  \/ exists a url k,
       api = Some a
       /\ traffic log
          = POST a :: rounds (Z.max 5 match p with Some v => v | None => 60 end) url k.
Proof.
  intros Hret.
  assert (Hsame : forall log' (x : exn + pyobj),
             invoke svc (run api p) ≈ Ret (log', x) -> log = log').
  { intros log' x Hx. rewrite Hx in Hret. apply eutt_inv_Ret in Hret. congruence. }
  destruct api as [[|c a]|].
  - left. rewrite (Hsame _ _ (interp_run_empty svc p)). reflexivity.
  - destruct (re.match_ url_pattern (c :: a)) as [m|] eqn:Hm.
    2:{ left. rewrite (Hsame [] (inl (ValueError invalid_api_trigger_msg))); [reflexivity|].
        apply interp_run_unmatched; [discriminate | exact Hm]. }
    destruct (match_groups _ Hm) as (secret & sync_id & _ & Hgroups & _).
    assert (Hvalid : validates (c :: a) secret sync_id) by (exists m; auto).
    right. exists (c :: a), (sr_url_of (PyStr secret)
                               match run_id_of (post svc (c :: a)) with
                               | inr v => v
                               | inl _ => PyNone
                               end).
    destruct (Z.eq_dec (status_code (post svc (c :: a))) 200) as [Hcode|Hcode].
    2:{ exists 0. split; [reflexivity|].
        rewrite (Hsame _ _ (interp_run_post_failed svc p Hvalid Hcode)). reflexivity. }
    destruct (run_id_of (post svc (c :: a))) as [e|run_id] eqn:Hid.
    { exists 0. split; [reflexivity|].
      rewrite (Hsame _ _ (interp_run_no_run_id svc p Hvalid Hcode Hid)). reflexivity. }
    assert (Hstarted : started (post svc (c :: a)) run_id).
    { split; [exact Hcode|]. unfold run_id_of, response_json in Hid.
      destruct (json (post svc (c :: a))) as [body|]; [|discriminate].
      destruct (getitem body (lit "data")) as [e|data] eqn:Hdata; [discriminate|].
      exists body, data. auto. }
    assert (Hleaf : (log, r) ∈ invoke svc (run (Some (c :: a)) p)).
    { rewrite Hret. apply Leaf_Ret. }
    rewrite (interp_run_started svc p Hvalid Hstarted), interp_bind in Hleaf.
    apply Leaf_bind_inv in Hleaf. destruct Hleaf as ([log1 r1] & Hloop & Hrest).
    unfold while_True in Hloop.
    apply (Leaf_interp_state_iter_inv (handle svc) _
             (fun l => exists k, traffic l
                                 = POST (c :: a)
                                   :: rounds (interval p) (sr_url_of (PyStr secret) run_id) k)
             (fun _ => True) (fun _ => True)) in Hloop; auto.
    + unfold prod_pred in Hloop. destruct Hloop as [[k Hk] _]. cbn [fst snd] in *.
      exists k. split; [reflexivity|].
      destruct r1 as [e|v].
      * apply Leaf_Ret_inv in Hrest. injection Hrest as -> _. exact Hk.
      * assert (Hend : exists tail,
                   interp_state (handle svc)
                     (now <~ perform time_time ;;
                      _ <~ perform (logger_info
                             (Elapsed (lit "Sync " ++ format_value (PyStr sync_id)
                                       ++ lit " has finished running after ")
                                      (clock svc 0) now (lit " seconds."))) ;;
                      _ <~ perform (logger_info
                             (Message (lit "View details here: "
                                       ++ log_url_of (PyStr sync_id) ++ lit "."))) ;;
                      ret v) log1
                   ≈ Ret (log1 ++ tail, inr v) /\ traffic tail = []).
        { eexists. split.
          - exec. rewrite <- !app_assoc. reflexivity.
          - reflexivity. }
        destruct Hend as (tail & Hend & Htail).
        rewrite Hend in Hrest. apply Leaf_Ret_inv in Hrest. injection Hrest as -> _.
        unfold traffic in *. rewrite filter_app, Htail, app_nil_r. exact Hk.
    + intros log2 result [k Hk] _ sx Hsx.
      destruct (interp_loop_body svc (PyStr sync_id) (interval p)
                  (sr_url_of (PyStr secret) run_id) (log_url_of (PyStr sync_id))
                  (clock svc 0) result log2) as (log' & Hbody & _ & Ht).
      rewrite Hbody in Hsx. apply Leaf_Ret_inv in Hsx. subst sx.
      unfold prod_pred. split.
      * exists (S k). rewrite Ht, Hk, <- rounds_snoc. reflexivity.
      * destruct (poll_result _ _) as [e|[s'|s']]; unfold sum_pred; auto.
    + exists 0. reflexivity.
  - left. rewrite (Hsame _ _ (interp_run_unset svc p)). reflexivity.
Qed.

End Unbounded.

Section Outcome.
Context `{PythonRuntime}.

Lemma getitem_returns o key v :
  getitem o key = inr v -> exists items, o = PyDict items /\ dict_get items key = Some v.
Proof.
  destruct o; try discriminate. cbn [getitem].
  destruct (dict_get items key) as [w|] eqn:Hw; [|discriminate].
  intros [= <-]. eauto.
Qed.

Lemma unpack_msg_head n :
  exists rest, unpack_msg n = 110%N :: rest \/ unpack_msg n = 116%N :: rest.
Proof. unfold unpack_msg. destruct (Nat.ltb n 2); eexists; [left|right]; reflexivity. Qed.

Lemma raised_missing : not_a_pattern_error (ValueError missing_api_trigger_msg).
Proof.
  split; [discriminate|]. intros n Hn.
  destruct (unpack_msg_head n) as (rest & [Hu|Hu]); rewrite Hu in Hn; discriminate.
Qed.

Lemma raised_invalid : not_a_pattern_error (ValueError invalid_api_trigger_msg).
Proof.
  split; [discriminate|]. intros n Hn.
  destruct (unpack_msg_head n) as (rest & [Hu|Hu]); rewrite Hu in Hn; discriminate.
Qed.

Lemma raised_getitem o key e : getitem o key = inl e -> not_a_pattern_error e.
Proof.
  intros He. destruct (getitem_raises _ _ He) as [-> | ->]; split; discriminate.
Qed.

Lemma raised_in_keys key o e : in_keys key o = inl e -> not_a_pattern_error e.
Proof. intros He. rewrite (in_keys_raises _ _ He). split; discriminate. Qed.

Lemma raised_response_json r e : response_json r = inl e -> not_a_pattern_error e.
Proof. intros He. rewrite (response_json_raises _ He). split; discriminate. Qed.

Lemma raised_post_failed response :
  not_a_pattern_error (ValueError (post_failed_msg response)).
Proof.
  split; [discriminate|]. intros n Hn.
  destruct (unpack_msg_head n) as (rest & [Hu|Hu]); rewrite Hu in Hn; discriminate.
Qed.

Lemma raised_poll_failed log_url :
  not_a_pattern_error (ValueError (poll_failed_msg log_url)).
Proof.
  split; [discriminate|]. intros n Hn.
  destruct (unpack_msg_head n) as (rest & [Hu|Hu]); rewrite Hu in Hn; discriminate.
Qed.

End Outcome.

Ltac outcome :=
  cbv beta iota; cbn [run_outcome];
  try exact I;
  try apply raised_post_failed;
  try apply raised_poll_failed;
  try match goal with
      | Hr : getitem _ _ = inl ?e |- not_a_pattern_error ?e =>
          eapply raised_getitem; exact Hr
      | Hr : in_keys _ _ = inl ?e |- not_a_pattern_error ?e =>
          eapply raised_in_keys; exact Hr
      | Hr : response_json _ = inl ?e |- not_a_pattern_error ?e =>
          eapply raised_response_json; exact Hr
      | Hr : getitem ?v (lit "status") = inr ?st,
        Hw : eq_str ?st (lit "working") = false |- finished_payload ?v =>
          let items := fresh "items" in
          destruct (getitem_returns v (lit "status") Hr) as (items & -> & ?);
          exists items, st; auto
      end.

Section Outcome2.
Context `{PythonRuntime}.

(** Every way [run] can end: an exception that is not one of the pattern's,
    or a finished payload. *)
Lemma run_ensures_outcome api p : ensures (run api p) run_outcome.
Proof.
  unfold run. rewrite url_pattern_compiled.
  destruct api as [[|c api]|].
  1,3: apply ensures_lift; cbn; apply raised_missing.
  destruct (re.match_ url_pattern (c :: api)) as [m|] eqn:Hm.
  2:{ apply ensures_lift; cbn; apply raised_invalid. }
  destruct (match_groups _ Hm) as (secret & sync_id & _ & Hgroups & _).
  rewrite Hgroups.
  repeat ensure_step; outcome.
Qed.

(** X10. What [run] returns is always a dict with a [status] that is not
    "working": never the initial empty dict, never the payload of a poll that
    said "working". *)
Theorem returned_payload_is_finished svc api p log v :
  invoke svc (run api p) ≈ Ret (log, inr v) -> finished_payload v.
Proof.
  intros Hret.
  assert (Hleaf : (log, inr v) ∈ invoke svc (run api p)).
  { rewrite Hret. apply Leaf_Ret. }
  apply Leaf_interp_state_inv in Hleaf.
  exact (run_ensures_outcome api p Hleaf).
Qed.


End Outcome2.

Section RoundTrip.
Context `{PythonRuntime}.

(** Two readings of one string around a separator that the shorter text
    does not contain. *)
Lemma split_at_separator (x : N) (a a' b b' : str) :
  a ++ x :: b = a' ++ x :: b' -> ~ In x a -> ~ In x b -> a = a' /\ b = b'.
Proof.
  intros Heq Ha Hb. apply app_eq_app in Heq.
  destruct Heq as (l & [[Hl Hr] | [Hl Hr]]); destruct l as [|c l].
  - rewrite app_nil_r in Hl. cbn in Hr. injection Hr as Hr. auto.
  - cbn in Hr. injection Hr as <- Hr. exfalso. apply Ha.
    rewrite Hl. apply in_or_app. right. left. reflexivity.
  - rewrite app_nil_r in Hl. cbn in Hr. injection Hr as Hr. auto.
  - cbn in Hr. injection Hr as <- Hr. exfalso. apply Hb.
    rewrite Hr. apply in_or_app. right. left. reflexivity.
Qed.

Lemma digits_exclude (c : N) (l : str) :
  re.is_decimal_digit c = false ->
  Forall (fun d => re.is_decimal_digit d = true) l -> ~ In c l.
Proof.
  intros Hc Hl Hin. rewrite Forall_forall in Hl. apply Hl in Hin. congruence.
Qed.

(** X1. An endpoint written in the docstring's format, with a secret that
    holds neither [@] nor a newline and a sync id of decimal digits, passes
    validation, and the secret and the sync id read off it are the ones it
    was written with. *)
Theorem trigger_url_round_trip secret sync_id :
  ~ In 64%N secret ->
  ~ In 10%N secret ->
  Forall (fun c => re.is_decimal_digit c = true) sync_id ->
  validates (trigger_url secret sync_id) secret sync_id.
Proof.
  intros Hat Hnl Hid.
  assert (Hs : starts_with_trigger (trigger_url secret sync_id) secret sync_id).
  { exists 46%N, 46%N, [].
    split; [reflexivity|]. split; [discriminate|]. split; [discriminate|].
    split; [|exact Hid].
    apply Forall_forall. intros c Hc ->. contradiction. }
  destruct (re.match_ url_pattern (trigger_url secret sync_id)) as [m|] eqn:Hm;
    [|destruct (match_complete Hs Hm)].
  destruct (match_groups _ Hm) as (secret' & sync_id' & _ & Hgroups & Hs').
  exists m. split; [exact Hm|]. rewrite Hgroups.
  destruct Hs' as (x & y & tail & Heq & _ & _ & _ & Hid').
  unfold trigger_url in Heq. apply app_inv_head in Heq.
  change (lit "@app.getcensus.com/api/v1/syncs/")
    with (64%N :: lit "app.getcensus.com/api/v1/syncs/") in Heq.
  change (lit "@app") with (64%N :: lit "app") in Heq.
  rewrite <- !app_comm_cons in Heq.
  apply split_at_separator in Heq; [|exact Hat|].
  2:{ intros Hin. apply in_app_or in Hin. destruct Hin as [Hin|Hin].
      - vm_compute in Hin. intuition discriminate.
      - apply in_app_or in Hin. destruct Hin as [Hin|Hin].
        + revert Hin. apply digits_exclude; [reflexivity | exact Hid].
        + vm_compute in Hin. intuition discriminate. }
  destruct Heq as [<- Heq].
  apply (f_equal (skipn 31)) in Heq. cbn in Heq.
  apply split_at_separator in Heq.
  - destruct Heq as [<- _]. reflexivity.
  - apply digits_exclude; [reflexivity | exact Hid].
  - vm_compute. intuition discriminate.
Qed.

End RoundTrip.

Section Greedy.
Context `{PythonRuntime}.

(** A greedy repeat, read as the split it settles on. *)
Lemma max_repeat_split s p : forall rest pos marks m,
  re.sre_match (re.MAX_REPEAT s :: p) rest pos marks = Some m ->
  exists u w, rest = u ++ w
              /\ Forall (fun c => re.set_match s c = true) u
              /\ re.sre_match p w (pos + List.length u) marks = Some m.
Proof.
  induction rest as [|c rest IH]; intros pos marks m Hm.
  - exists [], []. cbn in Hm. rewrite Nat.add_0_r. auto.
  - assert (Hskip : re.sre_match p (c :: rest) pos marks = Some m ->
                    exists u w, c :: rest = u ++ w
                                /\ Forall (fun c => re.set_match s c = true) u
                                /\ re.sre_match p w (pos + List.length u) marks = Some m).
    { intros Hp. exists [], (c :: rest). rewrite Nat.add_0_r. auto. }
    cbn in Hm. destruct (re.set_match s c) eqn:Hc; [|auto].
    match type of Hm with
    | match ?R with _ => _ end = _ => destruct R as [m'|] eqn:Hrep
    end; [|auto].
    injection Hm as ->.
    destruct (IH (S pos) marks m Hrep) as (u & w & -> & Hu & Hw).
    exists (c :: u), w. cbn. rewrite <- plus_n_Sm. auto.
Qed.

Lemma max_repeat_succeeds s p : forall u w pos marks,
  Forall (fun c => re.set_match s c = true) u ->
  re.sre_match p w (pos + List.length u) marks <> None ->
  re.sre_match (re.MAX_REPEAT s :: p) (u ++ w) pos marks <> None.
Proof.
  induction u as [|c u IH]; intros w pos marks Hu Hw.
  - rewrite Nat.add_0_r in Hw. cbn.
    destruct w as [|c w]; [exact Hw|].
    destruct (re.set_match s c); [|exact Hw].
    match goal with
    | |- match ?R with _ => _ end <> _ => destruct R
    end; [discriminate | exact Hw].
  - inversion Hu as [|? ? Hc Hu']; subst. cbn. rewrite Hc.
    cbn in Hw. rewrite <- plus_n_Sm in Hw.
    specialize (IH w (S pos) marks Hu' Hw). cbn in IH.
    match goal with
    | |- match ?R with _ => _ end <> _ => destruct R
    end; [discriminate | contradiction].
Qed.

(** The split it settles on is at least as long as any that works. *)
Lemma max_repeat_longest s p : forall u w pos marks m,
  Forall (fun c => re.set_match s c = true) u ->
  re.sre_match p w (pos + List.length u) marks <> None ->
  re.sre_match (re.MAX_REPEAT s :: p) (u ++ w) pos marks = Some m ->
  exists u2 w2, u ++ w = u2 ++ w2
                /\ List.length u <= List.length u2
                /\ Forall (fun c => re.set_match s c = true) u2
                /\ re.sre_match p w2 (pos + List.length u2) marks = Some m.
Proof.
  induction u as [|c u IH]; intros w pos marks m Hu Hw Hm.
  - destruct (@max_repeat_split s p _ pos marks m Hm) as (u2 & w2 & Heq & Hu2 & Hm2).
    exists u2, w2. repeat split; auto. cbn. lia.
  - inversion Hu as [|? ? Hc Hu']; subst.
    cbn in Hw. rewrite <- plus_n_Sm in Hw.
    pose proof (@max_repeat_succeeds s p u w (S pos) marks Hu' Hw) as Hrep.
    cbn in Hm, Hrep. rewrite Hc in Hm.
    match type of Hm with
    | match ?R with _ => _ end = _ => destruct R as [m'|] eqn:Hm'
    end; [|contradiction].
    injection Hm as ->.
    destruct (IH w (S pos) marks m Hu' Hw Hm') as (u2 & w2 & Heq & Hlen & Hu2 & Hm2).
    exists (c :: u2), w2. cbn. rewrite Heq, <- plus_n_Sm.
    repeat split; auto. lia.
Qed.

End Greedy.

Ltac open_code H :=
  repeat match type of H with
         | accepts (re.ONE (re.LITERAL _) :: _) _ _ _ _ =>
             let c := fresh "c" in let w := fresh "w" in let Hc := fresh "Hc" in
             destruct H as (c & w & -> & Hc & H);
             apply set_match_LITERAL in Hc; subst c
         | accepts (re.ONE re.ANY :: _) _ _ _ _ =>
             let c := fresh "c" in let w := fresh "w" in let Hc := fresh "Hany" in
             destruct H as (c & w & -> & Hc & H)
         | accepts (re.MAX_REPEAT _ :: _) _ _ _ _ =>
             let u := fresh "u" in let w := fresh "w" in let Hu := fresh "Hu" in
             destruct H as (u & w & -> & Hu & H)
         | accepts (re.MARK _ :: _) _ _ _ _ =>
             change (accepts (re.MARK ?n :: ?p) ?w ?pos ?mk ?m)
               with (accepts p w pos ((n, pos) :: mk) m) in H
         | accepts [] _ _ _ _ => destruct H as [-> ->]
         end.

Section GreedySecret.
Context `{PythonRuntime}.

(** X3. When [api_trigger] can be read as a trigger URL in more than one
    way, the secret that validation reads off it is the longest: the repeat
    of the first group is greedy. *)
Theorem longest_secret_is_read api secret sync_id secret' sync_id' :
  validates api secret sync_id ->
  starts_with_trigger api secret' sync_id' ->
  List.length secret' <= List.length secret.
Proof.
  intros (m & Hm & Hgroups) (x & y & tail & -> & Hx & Hy & Hsecret' & Hid').
  unfold re.match_ in Hm.
  destruct (re.sre_match (re.prog url_pattern) _ 0 []) as [marks|] eqn:Hsre;
    [|discriminate].
  injection Hm as <-.
  set (full := lit "@app" ++ [x] ++ lit "getcensus" ++ [y] ++ lit "com/api/v1/syncs/"
               ++ sync_id' ++ lit "/trigger" ++ tail) in *.
  assert (Hany : forall c, c <> 10%N -> re.set_match re.ANY c = true).
  { intros c Hc. cbn. apply negb_true_iff, N.eqb_neq, Hc. }
  assert (Hfull : re.sre_match (skipn 30 (re.prog url_pattern)) full
                    (28 + List.length secret') [(0, 28)] <> None).
  { assert (Hacc : exists m,
               accepts (skipn 30 (re.prog url_pattern))
                       (lit "@app" ++ [x] ++ lit "getcensus" ++ [y]
                        ++ lit "com/api/v1/syncs/" ++ sync_id' ++ lit "/trigger")
                       (28 + List.length secret') [(0, 28)] m).
    { eexists. unfold url_pattern, re.prog, lit.
      cbn [skipn list_ascii_of_string List.map app].
      repeat first
        [ apply accepts_ONE; [first [reflexivity | apply Hany; assumption]|]
        | apply accepts_MAX_REPEAT; [exact Hid'|]
        | progress cbn [accepts] ].
      split; reflexivity. }
    destruct Hacc as [m Hacc].
    eapply sre_match_complete with (tail := tail) in Hacc.
    repeat rewrite <- app_assoc in Hacc. exact Hacc. }
  assert (Hsre' : re.sre_match (re.MAX_REPEAT re.ANY :: skipn 30 (re.prog url_pattern))
                    (secret' ++ full) 28 [(0, 28)] = Some marks) by exact Hsre.
  apply max_repeat_longest in Hsre'; [| | exact Hfull].
  2:{ eapply Forall_impl; [|exact Hsecret']. exact Hany. }
  destruct Hsre' as (u2 & w2 & Heq & Hlen & _ & Hm2).
  assert (Hu2 : firstn (28 + List.length u2 - 28)
                  (skipn 28 (lit "https://bearer:secret-token:" ++ secret' ++ full)) = u2).
  { apply slice_between with (pre := lit "https://bearer:secret-token:") (rest := w2).
    - rewrite Heq. reflexivity.
    - reflexivity.
    - rewrite length_app. reflexivity. }
  apply sre_match_sound in Hm2. destruct Hm2 as (w3 & tail3 & _ & Hacc).
  unfold url_pattern, re.prog in Hacc. cbn [skipn] in Hacc.
  open_code Hacc.
  unfold re.groups in Hgroups. cbn [re.re_ re.ngroups url_pattern seq List.map] in Hgroups.
  erewrite (group_at _ 1) in Hgroups by reflexivity.
  cbn [re.string] in Hgroups.
  injection Hgroups as Hsecret _.
  assert (secret = u2) as -> by (rewrite <- Hsecret; exact Hu2).
  exact Hlen.
Qed.

End GreedySecret.

(* ===================================================================== *)
(** ** The further properties at concrete inputs *)
(* ===================================================================== *)

Section FurtherInstances.
#[local] Existing Instance example_runtime.

(** X1 at the secret [abc123] and the sync id [42]. *)
Lemma example_trigger_round_trip :
  validates (trigger_url (lit "abc123") (lit "42")) (lit "abc123") (lit "42").
Proof.
  apply (@trigger_url_round_trip example_runtime (lit "abc123") (lit "42")).
  - vm_compute. intuition discriminate.
  - vm_compute. intuition discriminate.
  - repeat constructor.
Defined.

(** X3 at an endpoint with two readings: the secret read is the long one. *)
Lemma ambiguous_trigger_reads_long_secret :
  validates ambiguous_trigger
    (lit "a@app.getcensus.com/api/v1/syncs/1/trigger") (lit "22")
  /\ starts_with_trigger ambiguous_trigger (lit "a") (lit "1")
  /\ List.length (lit "a")
     <= List.length (lit "a@app.getcensus.com/api/v1/syncs/1/trigger").
Proof.
  assert (Hv : validates ambiguous_trigger
                 (lit "a@app.getcensus.com/api/v1/syncs/1/trigger") (lit "22")).
  { eexists. split; vm_compute; reflexivity. }
  assert (Hs : starts_with_trigger ambiguous_trigger (lit "a") (lit "1")).
  { exists 46%N, 46%N, (lit "@app.getcensus.com/api/v1/syncs/22/trigger").
    split; [reflexivity|]. split; [discriminate|]. split; [discriminate|].
    split; repeat constructor. discriminate. }
  split; [exact Hv|]. split; [exact Hs|].
  exact (@longest_secret_is_read example_runtime ambiguous_trigger _ _ _ _ Hv Hs).
Defined.

(** X4 at a first poll answered 500 with a JSON body. *)
Lemma poll_500_names_log_url :
  exists log,
    invoke poll_500_json (run (Some example_trigger) None)
    ≈ Ret (log,
           inl (ValueError
                  (lit "Getting status of sync failed, please visit Census Logs at "
                   ++ (lit "https://app.getcensus.com/syncs/" ++ lit "42"
                       ++ lit "/sync-history")
                   ++ lit " to see more.")))
    /\ requests log = POST example_trigger :: repeat (GET example_sr_url) 1.
Proof.
  apply (@decoded_poll_failure_names_log_url example_runtime poll_500_json
           example_trigger None (lit "abc123") (lit "42") (PyStr (lit "r9")) 0
           (PyDict [(lit "error", PyStr (lit "boom"))])).
  - exact example_trigger_validates.
  - exact trigger_reply_started.
  - intros i Hi. lia.
  - reflexivity.
  - left. vm_compute. discriminate.
Defined.

(** X5 at a first poll answered 200 with [[]]. *)
Lemma list_body_raises_attribute_error :
  exists log,
    invoke poll_list_body (run (Some example_trigger) None) ≈ Ret (log, inl AttributeError)
    /\ requests log = POST example_trigger :: repeat (GET example_sr_url) 1.
Proof.
  apply (@non_dict_poll_body_raises_attribute_error example_runtime poll_list_body
           example_trigger None (lit "abc123") (lit "42") (PyStr (lit "r9")) 0
           (PyList [])).
  - exact example_trigger_validates.
  - exact trigger_reply_started.
  - intros i Hi. lia.
  - reflexivity.
  - reflexivity.
  - discriminate.
Defined.

(** X6 at a first poll answered 200 with [{"data": {}}]. *)
Lemma empty_data_poll_raises_key_error :
  exists log e,
    invoke poll_no_status (run (Some example_trigger) None) ≈ Ret (log, inl e)
    /\ e = KeyError (lit "status")
    /\ requests log = POST example_trigger :: repeat (GET example_sr_url) 1.
Proof.
  apply (@poll_without_status_raises_lookup_error example_runtime poll_no_status
           example_trigger None (lit "abc123") (lit "42") (PyStr (lit "r9")) 0
           (PyDict [(lit "data", PyDict [])]) (PyDict [])).
  - exact example_trigger_validates.
  - exact trigger_reply_started.
  - intros i Hi. lia.
  - reflexivity.
  - reflexivity.
  - reflexivity.
  - intros items v [= <-]. discriminate.
Defined.

(** X7 at a trigger answered 200 with the text [OK]. *)
Lemma trigger_ok_text_raises_decode_error :
  invoke trigger_not_json (run (Some example_trigger) None)
  ≈ Ret ([POST example_trigger;
          INFO (Message (lit "Started Census sync 42, sleep time set to 60 seconds."))],
         inl JSONDecodeError).
Proof.
  apply (@undecodable_trigger_body_raises example_runtime trigger_not_json
           example_trigger None (lit "abc123") (lit "42")).
  - exact example_trigger_validates.
  - reflexivity.
  - reflexivity.
Defined.

(** X8 at a service that always answers "working". *)
Lemma always_working_run_never_ends :
  (forall i, still_working (get always_working i example_sr_url))
  /\ ~ exists log r,
         invoke always_working (run (Some example_trigger) None) ≈ Ret (log, r).
Proof.
  split.
  - intros i. exact working_reply_still_working.
  - apply (@always_working_never_ends example_runtime always_working example_trigger
             None (lit "abc123") (lit "42") (PyStr (lit "r9"))).
    + exact example_trigger_validates.
    + exact trigger_reply_started.
    + intros i. exact working_reply_still_working.
Defined.

Lemma three_polls_finish :
  exists log,
    invoke three_polls (run (Some example_trigger) None) ≈ Ret (log, inr completed_data).
Proof.
  destruct (@interp_run example_runtime three_polls example_trigger None
              (lit "abc123") (lit "42") (PyStr (lit "r9")) 2 (inr completed_data))
    as (log & Hrun & _).
  - exact example_trigger_validates.
  - exact trigger_reply_started.
  - intros i Hi. apply still_working_continues.
    destruct i as [|[|i]]; [exact working_reply_still_working .. | lia].
  - vm_compute. reflexivity.
  - exists log. exact Hrun.
Defined.

(** X9 at "working", "working", "completed". *)
Lemma three_polls_traffic :
  exists log,
    invoke three_polls (run (Some example_trigger) None) ≈ Ret (log, inr completed_data)
    /\ (traffic log = []
        \/ exists a url k,
             Some example_trigger = Some a
             /\ traffic log = POST a :: rounds (Z.max 5 60) url k).
Proof.
  destruct three_polls_finish as (log & Hrun).
  exists log. split; [exact Hrun|].
  exact (@traffic_is_post_then_rounds example_runtime three_polls
           (Some example_trigger) None log (inr completed_data) Hrun).
Defined.

(** X10 at "working", "working", "completed". *)
Lemma three_polls_payload_is_finished :
  (exists log,
     invoke three_polls (run (Some example_trigger) None) ≈ Ret (log, inr completed_data))
  /\ finished_payload completed_data.
Proof.
  split; [exact three_polls_finish|].
  destruct three_polls_finish as (log & Hrun).
  exact (@returned_payload_is_finished example_runtime three_polls
           (Some example_trigger) None log completed_data Hrun).
Defined.


End FurtherInstances.
